(** * py-nosql: the LSM storage engine and the document layer

    A shallow embedding of [py_nosql/storage/{wal,sstable,lsm}.py] and
    [py_nosql/document/{schema,collection,store,wrapper}.py].

    Conventions of the embedding.
    - A Python [dict] is an association list in insertion order (the order
      [items()] yields, which [_scan_docs] exposes); assigning to a key that
      is present replaces its value in place.
    - A method that only reads is a function from the state to an [outcome];
      a method that mutates runs in the state-and-exception monad [M]: an
      exception leaves the mutations made before it in place, as in Python.
    - Text files hold one record per line.  A line is kept as what
      [line.strip()] and [json.loads(line)] make of it: blank, unparseable,
      or the record it holds.  The code appends to [wal.log] only, and what
      it appends continues the last line when that line lacks its newline:
      the state keeps how the file ends.
    - A [str] is held as the bytes of its UTF-8 encoding: byte order is the
      order of code points, and [len] counts the bytes that start one.
    - An [int] is a [Z]; turning one into text or back is refused beyond
      the interpreter's limit on decimal digits.
    - [f.tell()] on a text file returns an opaque cookie that [f.seek] takes
      back; [SSTable.write] asks for it only at the start of a line, so the
      cookie of a line is its number.
    - [int(time.time() * 1000)] reads the field [clock] of the state. *)

From Stdlib Require Import String Ascii List ZArith Bool Lia DecimalString.
Import ListNotations.

Local Open Scope list_scope.
Local Open Scope string_scope.

(** ** Python values of documents and schema rules

    Field values of a document are the JSON scalars: [None], booleans,
    integers and strings. *)

Inductive value :=
| VNone
| VBool (b : bool)
| VInt (z : Z)
| VStr (s : string).

(** The type objects a schema's ["type"] rule may name. *)
Inductive pytype := Tstr | Tint | Tfloat | Tbool | Tlist | Tdict.

(** ** Exceptions *)

(** What a [ValueError] is raised for: the rule of [Schema.validate] that
    failed, with what the rule was asked about, or an [int] beyond the
    digit limit met by [json.dumps] or [json.loads].  The text of the
    message is not kept. *)
Inductive violation :=
| Duplicate (field : string) (val : value)
| LengthBound (field : string) (op : string) (bound : Z)
| NumericBound (field : string) (op : string) (bound : Z)
| NotInEnum (field : string) (val : value)
| DanglingRef (field : string) (val : value) (coll : string)
| DigitLimit.

(** What a [TypeError] is raised for. *)
Inductive type_error :=
| NoItemAssignment          (* [typing.Dict[str, int] = {}] *)
| FieldType (field : string) (* the schema's type check *)
| CannotConcat.             (* [str + <not a str>] *)

Inductive exn :=
| AttributeError (name : string)
| TypeError (why : type_error)
| ZeroDivisionError
| KeyError (key : string)
| JSONDecodeError
| FileNotFoundError (path : string)
| ValueError (v : violation).

(** ** Outcomes and the state-and-exception monad *)

Inductive outcome (A : Type) :=
| Returned (a : A)
| Raised (e : exn).

Arguments Returned {A} a.
Arguments Raised {A} e.

Definition M (St A : Type) : Type := St -> outcome A * St.

Class Monad (F : Type -> Type) := {
  ret : forall {A}, A -> F A;
  bind : forall {A B}, F A -> (A -> F B) -> F B
}.

#[global] Instance outcome_monad : Monad outcome := {|
  ret := fun A a => Returned a;
  bind := fun A B m k => match m with Returned a => k a | Raised e => Raised e end
|}.

#[global] Instance M_monad (St : Type) : Monad (M St) := {|
  ret := fun A a s => (Returned a, s);
  bind := fun A B m k s =>
            match m s with
            | (Returned a, s') => k a s'
            | (Raised e, s') => (Raised e, s')
            end
|}.

Declare Scope monad_scope.
Delimit Scope monad_scope with monad.
Notation "x <- c1 ;; c2" := (bind c1 (fun x => c2))
  (at level 61, c1 at next level, right associativity) : monad_scope.
Notation "c1 ;; c2" := (bind c1 (fun _ => c2))
  (at level 61, right associativity) : monad_scope.
Local Open Scope monad_scope.

(** [raise e] *)
Definition raise {St A : Type} (e : exn) : M St A := fun s => (Raised e, s).

(** Running read-only code inside a mutating method. *)
Definition reads {St A : Type} (f : St -> outcome A) : M St A := fun s => (f s, s).

Definition modify {St : Type} (f : St -> St) : M St unit := fun s => (Returned tt, f s).

(** Reading [self]. *)
Definition get_state {St : Type} : M St St := fun s => (Returned s, s).

(** A generator: the items it yields, in order, ended early by [Throw e]
    when advancing it raises [e].  A consumer that stops early never sees
    what comes after the point it stopped at. *)
Inductive step (A : Type) :=
| Yield (a : A)
| Throw (e : exn).

Arguments Yield {A} a.
Arguments Throw {A} e.

Definition gen (A : Type) : Type := list (step A).

(** ** Python dictionaries keyed by [str] *)

Definition dict (A : Type) : Type := list (string * A).

(** [d.get(k)]: [None] when [k] is not a key. *)
Fixpoint dict_get {A : Type} (k : string) (d : dict A) : option A :=
  match d with
  | [] => None
  | (k', v) :: rest => if String.eqb k' k then Some v else dict_get k rest
  end.

(** [k in d] *)
Definition dict_has {A : Type} (k : string) (d : dict A) : bool :=
  match dict_get k d with Some _ => true | None => false end.

(** [d[k] = v] *)
Fixpoint dict_set {A : Type} (k : string) (v : A) (d : dict A) : dict A :=
  match d with
  | [] => [(k, v)]
  | (k', v') :: rest =>
      if String.eqb k' k then (k', v) :: rest else (k', v') :: dict_set k v rest
  end.

(** [d.update(u)] *)
Definition dict_update {A : Type} (d u : dict A) : dict A :=
  fold_left (fun acc kv => dict_set (fst kv) (snd kv) acc) u d.

(** [del d[k]] when [k] is a key, nothing otherwise (an [os.remove] whose
    [FileNotFoundError] is caught). *)
Fixpoint dict_remove {A : Type} (k : string) (d : dict A) : dict A :=
  match d with
  | [] => []
  | (k', v) :: rest =>
      if String.eqb k' k then rest else (k', v) :: dict_remove k rest
  end.

Definition dict_keys {A : Type} (d : dict A) : list string := map fst d.

(** [len(d)] *)
Definition len {A : Type} (d : list A) : Z := Z.of_nat (length d).

(** [sorted(items, key=lambda kv: kv[0])]: stable, ascending by [str] order. *)
Fixpoint insert_by_key {A : Type} (kv : string * A) (l : list (string * A))
  : list (string * A) :=
  match l with
  | [] => [kv]
  | x :: rest =>
      if String.ltb (fst kv) (fst x) then kv :: l
      else x :: insert_by_key kv rest
  end.

Definition sorted_by_key {A : Type} (items : list (string * A)) : list (string * A) :=
  fold_left (fun acc kv => insert_by_key kv acc) items [].

(** [max(candidates)] over a non-empty list of [str], given its head. *)
Definition max_str (k : string) (ks : list string) : string :=
  fold_left (fun m x => if String.ltb m x then x else m) ks k.

(** [a % b] on integers. *)
Definition py_mod {St : Type} (a b : Z) : M St Z :=
  if Z.eqb b 0 then raise ZeroDivisionError else ret (Z.modulo a b).

(** [str(n)] for the decimal a timestamp is printed as in a file name. *)
Definition str_of_int (n : Z) : string := NilZero.string_of_int (Z.to_int n).

(** Attribute lookup [obj.name] on an object whose class and instance
    define exactly [attrs]. *)
Definition getattr {St : Type} (attrs : list string) (name : string) : M St unit :=
  if existsb (String.eqb name) attrs then ret tt else raise (AttributeError name).

(** ** The storage engine: [wal.py], [sstable.py], [lsm.py]

    The engine stores values of Python type [str] and looks at a value only
    to tell it from [None], the tombstone: the type [V] of values is left
    open here, and [option V] is [Optional[str]]. *)

Section Storage.

Context {V : Type}.

(** A line of [wal.log]: one on which [line.strip()] is empty, one on which
    [json.loads] raises, or a record
    [{"op": op, "key": key, "value": value}]. *)
Inductive wal_line :=
| WBlank
| WCorrupt
| WRec (op : string) (key : string) (value : option V).

(** A line of an SSTable data file, likewise; a record is
    [{"key": key, "value": value}]. *)
Inductive sst_line :=
| SBlank
| SCorrupt
| SRec (key : string) (value : option V).

(** An [SSTable] object.  [index_path] is [data_path] with [".idx"] added. *)
Record SSTable := mkSSTable {
  data_path : string;
  index : dict nat
}.

Definition index_path (sst : SSTable) : string := data_path sst ++ ".idx".

(** How a text file ends: with the newline of its last line (a file
    without lines ends so too), or in a last line that lacks its newline
    and holds blanks and tabs only, or in a last line that lacks it and
    holds anything else.  Of the characters [line.strip()] removes,
    [json.loads] skips blanks and tabs before a value and no other. *)
Inductive file_end :=
| Newline
| Spaces
| Text.

(** An [LSMEngine] with the part of the world it works on: the files of
    its data directory (named relative to it) and the clock. *)
Record LSMEngine := mkLSMEngine {
  clock : Z;
  wal_log : list wal_line;                (* the lines of the file [wal.log] *)
  wal_end : file_end;                     (* how [wal.log] ends *)
  wal_archive : dict (list wal_line);     (* the files [wal.log.<ts>] *)
  data_files : dict (list sst_line);      (* the files [sst_*.jsonl] *)
  index_files : dict (dict nat);          (* the files [sst_*.jsonl.idx] *)
  memtable : dict (option V);
  memtable_limit : Z;
  sstables : list SSTable
}.

Definition set_wal_log (l : list wal_line) (e : LSMEngine) : LSMEngine :=
  mkLSMEngine (clock e) l (wal_end e) (wal_archive e) (data_files e) (index_files e)
              (memtable e) (memtable_limit e) (sstables e).

Definition set_wal_end (t : file_end) (e : LSMEngine) : LSMEngine :=
  mkLSMEngine (clock e) (wal_log e) t (wal_archive e) (data_files e) (index_files e)
              (memtable e) (memtable_limit e) (sstables e).

Definition set_wal_archive (a : dict (list wal_line)) (e : LSMEngine) : LSMEngine :=
  mkLSMEngine (clock e) (wal_log e) (wal_end e) a (data_files e) (index_files e)
              (memtable e) (memtable_limit e) (sstables e).

Definition set_data_files (d : dict (list sst_line)) (e : LSMEngine) : LSMEngine :=
  mkLSMEngine (clock e) (wal_log e) (wal_end e) (wal_archive e) d (index_files e)
              (memtable e) (memtable_limit e) (sstables e).

Definition set_index_files (d : dict (dict nat)) (e : LSMEngine) : LSMEngine :=
  mkLSMEngine (clock e) (wal_log e) (wal_end e) (wal_archive e) (data_files e) d
              (memtable e) (memtable_limit e) (sstables e).

Definition set_memtable (m : dict (option V)) (e : LSMEngine) : LSMEngine :=
  mkLSMEngine (clock e) (wal_log e) (wal_end e) (wal_archive e) (data_files e) (index_files e)
              m (memtable_limit e) (sstables e).

Definition set_sstables (l : list SSTable) (e : LSMEngine) : LSMEngine :=
  mkLSMEngine (clock e) (wal_log e) (wal_end e) (wal_archive e) (data_files e) (index_files e)
              (memtable e) (memtable_limit e) l.

(** *** wal.py *)

(** The attributes of a [WAL] object: [path] and [f] set by [__init__], and
    the methods of the class. *)
Definition WAL_attrs : list string :=
  ["path"; "f"; "append_put"; "replay"; "reset"; "close"].

(** The lines of a file after [f.write(json.dumps(rec) + "\n")] on a handle
    opened for appending.  After a newline, or in a file without lines,
    the text is a line of its own.  Else it continues the last line: after
    a blank line of blanks and tabs [json.loads] reads the record; after
    anything else it raises, on the extra data behind a value or inside
    what a crash left unfinished. *)
Definition written (lines : list wal_line) (ending : file_end) (rec : wal_line)
  : list wal_line :=
  match lines, ending with
  | [], _ | _, Newline => (lines ++ [rec])%list
  | _ :: _, Spaces =>
      (removelast lines
       ++ [match last lines WBlank with WBlank => rec | _ => WCorrupt end])%list
  | _ :: _, Text => (removelast lines ++ [WCorrupt])%list
  end.

(** [WAL.append_put], wal.py 14-18. *)
Definition WAL_append_put (key : string) (value : option V) : M LSMEngine unit :=
  modify (fun e =>
    set_wal_end Newline
      (set_wal_log (written (wal_log e) (wal_end e) (WRec "put" key value)) e)).

(** The loop of [WAL.replay], wal.py 23-30, over the lines left to read. *)
Fixpoint replay_lines (lines : list wal_line) (mem : dict (option V))
  : outcome (dict (option V)) :=
  match lines with
  | [] => Returned mem
  | WBlank :: rest => replay_lines rest mem
  | WCorrupt :: _ => Raised JSONDecodeError
  | WRec op key value :: rest =>
      if String.eqb op "put" then replay_lines rest (dict_set key value mem)
      else if String.eqb op "del" then replay_lines rest (dict_set key None mem)
      else replay_lines rest mem
  end.

(** [WAL.replay], wal.py 20-32.  The handle is opened in mode [a+]: where
    it is left in the file does not move the next append. *)
Definition WAL_replay (e : LSMEngine) : outcome (dict (option V)) :=
  replay_lines (wal_log e) [].

(** [WAL.reset], wal.py 34-40. *)
Definition WAL_reset : M LSMEngine unit :=
  modify (fun e =>
    let archived := "wal.log." ++ str_of_int (clock e) in
    set_wal_end Newline
      (set_wal_log [] (set_wal_archive (dict_set archived (wal_log e) (wal_archive e)) e))).

(** *** sstable.py *)

Definition INDEX_SAMPLE : Z := 0.

(** The assignment [typing.Dict[str, int] = {}], the second target of the
    chained assignments [index = Dict[str, int] = {}] (sstable.py 12 and
    20): [typing.Dict] has no [__setitem__]. *)
Definition typing_Dict_setitem : M LSMEngine unit :=
  raise (TypeError NoItemAssignment).

(** [SSTable.__init__], sstable.py 9-15. *)
Definition SSTable_init (path : string) : M LSMEngine SSTable :=
  typing_Dict_setitem ;;
  e <- get_state ;;
  match dict_get (path ++ ".idx") (index_files e) with
  | Some ix => ret (mkSSTable path ix)
  | None => ret (mkSSTable path [])
  end.

(** [f.tell()] on the data file being written. *)
Definition tell (path : string) : M LSMEngine nat :=
  reads (fun e => match dict_get path (data_files e) with
                  | Some lines => Returned (length lines)
                  | None => Raised (FileNotFoundError path)
                  end).

(** [f.write(json.dumps(rec) + "\n")] *)
Definition write_line (path : string) (l : sst_line) : M LSMEngine unit :=
  modify (fun e =>
    match dict_get path (data_files e) with
    | Some lines => set_data_files (dict_set path ((lines ++ [l])%list) (data_files e)) e
    | None => e
    end).

(** The loop of [SSTable.write], sstable.py 22-27, from record number [i]. *)
Fixpoint write_records (path : string) (i : Z) (items : list (string * option V))
    (index : dict nat) : M LSMEngine (dict nat) :=
  match items with
  | [] => ret index
  | (k, v) :: rest =>
      pos <- tell path ;;
      write_line path (SRec k v) ;;
      r <- py_mod i INDEX_SAMPLE ;;
      write_records path (i + 1) rest
        (if Z.eqb r 0 then dict_set k pos index else index)
  end.

(** [SSTable.write], sstable.py 17-30. *)
Definition SSTable_write (path : string) (items : list (string * option V))
  : M LSMEngine SSTable :=
  let items := sorted_by_key items in
  typing_Dict_setitem ;;
  modify (fun e => set_data_files (dict_set path [] (data_files e)) e) ;;
  index <- write_records path 0 items [] ;;
  modify (fun e => set_index_files (dict_set (path ++ ".idx") index (index_files e)) e) ;;
  SSTable_init path.

(** The lines of a data file as the loop of [_scan_from] yields them. *)
Fixpoint scan_lines (lines : list sst_line) : gen (string * option V) :=
  match lines with
  | [] => []
  | SBlank :: rest => scan_lines rest
  | SCorrupt :: _ => [Throw JSONDecodeError]
  | SRec k v :: rest => Yield (k, v) :: scan_lines rest
  end.

(** [SSTable._scan_from], sstable.py 32-39. *)
Definition _scan_from (sst : SSTable) (start_offset : nat) (e : LSMEngine)
  : gen (string * option V) :=
  match dict_get (data_path sst) (data_files e) with
  | None => [Throw (FileNotFoundError (data_path sst))]
  | Some lines => scan_lines (skipn start_offset lines)
  end.

(** The loop of [SSTable.get], sstable.py 48-53. *)
Fixpoint get_scan (key : string) (g : gen (string * option V)) : outcome (option V) :=
  match g with
  | [] => Returned None
  | Throw e :: _ => Raised e
  | Yield (k, v) :: rest =>
      if String.eqb k key then Returned v
      else if String.ltb key k then Returned None
      else get_scan key rest
  end.

(** [SSTable.get], sstable.py 41-53.  The scan belongs to the [else]
    branch: with a candidate the method computes [start_offset] and falls
    off its end, returning [None]. *)
Definition SSTable_get (sst : SSTable) (key : string) (e : LSMEngine)
  : outcome (option V) :=
  let candidates := filter (fun k => String.leb k key) (dict_keys (index sst)) in
  match candidates with
  | c :: cs =>
      let start_key := max_str c cs in
      match dict_get start_key (index sst) with
      | Some start_offset => Returned None
      | None => Raised (KeyError start_key)
      end
  | [] =>
      let start_offset := 0%nat in
      get_scan key (_scan_from sst start_offset e)
  end.

(** *** lsm.py *)

(** [LSMEngine.flush], lsm.py 55-64. *)
Definition LSMEngine_flush : M LSMEngine unit :=
  e <- get_state ;;
  match memtable e with
  | [] => ret tt
  | _ :: _ =>
      let ts := clock e in
      let path := "sst_" ++ str_of_int ts ++ ".jsonl" in
      sst <- SSTable_write path (memtable e) ;;
      modify (fun e => set_sstables ((sstables e ++ [sst])%list) e) ;;
      WAL_reset ;;
      modify (set_memtable [])
  end.

(** [if len(self.memtable) >= self.memtable_limit: self.flush()] *)
Definition flush_if_full : M LSMEngine unit :=
  e <- get_state ;;
  if (len (memtable e) >=? memtable_limit e)%Z then LSMEngine_flush else ret tt.

(** [LSMEngine.put], lsm.py 24-28. *)
Definition LSMEngine_put (key : string) (value : V) : M LSMEngine unit :=
  WAL_append_put key (Some value) ;;
  modify (fun e => set_memtable (dict_set key (Some value) (memtable e)) e) ;;
  flush_if_full.

(** The engine after lines 25-26 of [LSMEngine.put]: the record written
    at the end of the log and the memtable entry set. *)
Definition after_put (key : string) (value : V) (e : LSMEngine) : LSMEngine :=
  set_memtable (dict_set key (Some value) (memtable e))
    (set_wal_end Newline
       (set_wal_log (written (wal_log e) (wal_end e) (WRec "put" key (Some value))) e)).

(** [LSMEngine.delete], lsm.py 31-35.  Line 32 looks [append_del] up on the
    [WAL] object, whose class does not define it. *)
Definition LSMEngine_delete (key : string) : M LSMEngine unit :=
  getattr WAL_attrs "append_del" ;;
  modify (fun e => set_memtable (dict_set key None (memtable e)) e) ;;
  flush_if_full.

Definition is_None {A : Type} (v : option A) : bool :=
  match v with None => true | Some _ => false end.

(** [LSMEngine._exists_in_sstable], lsm.py 49-52. *)
Definition _exists_in_sstable (sst : SSTable) (key : string) (e : LSMEngine)
  : outcome bool :=
  v <- SSTable_get sst key e ;;
  ret (negb (is_None v)).

(** The loop of [LSMEngine.get], lsm.py 42-46, over the tables left to
    search, newest first. *)
Fixpoint get_sstables (ssts : list SSTable) (key : string) (e : LSMEngine)
  : outcome (option V) :=
  match ssts with
  | [] => Returned None
  | sst :: rest =>
      v <- SSTable_get sst key e ;;
      hit <- (if negb (is_None v) then ret true
              else if is_None v then _exists_in_sstable sst key e
              else ret false) ;;
      if (hit : bool) then ret v else get_sstables rest key e
  end.

(** [LSMEngine.get], lsm.py 38-46.  The result is Python's
    [Optional[str]]: [None] stands for a tombstone and for a key that was
    not found alike. *)
Definition LSMEngine_get (key : string) (e : LSMEngine) : outcome (option V) :=
  match dict_get key (memtable e) with
  | Some v => Returned v
  | None => get_sstables (rev (sstables e)) key e
  end.

(** The inner loop of [LSMEngine.compact], lsm.py 75-81, over one file. *)
Fixpoint merge_lines (lines : list sst_line) (merged : dict (option V))
  : outcome (dict (option V)) :=
  match lines with
  | [] => Returned merged
  | SBlank :: rest => merge_lines rest merged
  | SCorrupt :: _ => Raised JSONDecodeError
  | SRec k v :: rest =>
      merge_lines rest (if dict_has k merged then merged else dict_set k v merged)
  end.

(** The outer loop of [LSMEngine.compact], lsm.py 73-81, newest first. *)
Fixpoint merge_sstables (ssts : list SSTable) (merged : dict (option V))
    (e : LSMEngine) : outcome (dict (option V)) :=
  match ssts with
  | [] => Returned merged
  | sst :: rest =>
      match dict_get (data_path sst) (data_files e) with
      | None => Raised (FileNotFoundError (data_path sst))
      | Some lines =>
          merged' <- merge_lines lines merged ;;
          merge_sstables rest merged' e
      end
  end.

(** [{k: v for k, v in merged.items() if v is not None}], lsm.py 83. *)
Definition drop_tombstones (merged : dict (option V)) : dict (option V) :=
  filter (fun kv => negb (is_None (snd kv))) merged.

(** The removal loop of [LSMEngine.compact], lsm.py 88-96. *)
Fixpoint remove_files (ssts : list SSTable) : M LSMEngine unit :=
  match ssts with
  | [] => ret tt
  | sst :: rest =>
      modify (fun e => set_data_files (dict_remove (data_path sst) (data_files e)) e) ;;
      modify (fun e => set_index_files (dict_remove (index_path sst) (index_files e)) e) ;;
      remove_files rest
  end.

(** [LSMEngine.compact], lsm.py 67-97. *)
Definition LSMEngine_compact : M LSMEngine unit :=
  e <- get_state ;;
  match sstables e with
  | [] => ret tt
  | _ :: _ =>
      merged <- reads (merge_sstables (rev (sstables e)) []) ;;
      let merged := drop_tombstones merged in
      let ts := clock e in
      let new_path := "sst_" ++ str_of_int ts ++ "_compacted.jsonl" in
      new_sst <- SSTable_write new_path merged ;;
      remove_files (sstables e) ;;
      modify (set_sstables [new_sst])
  end.

(** The engine [LSMEngine(data_dir, memtable_limit)] builds on a directory
    that holds no file yet, lsm.py 12-21. *)
Definition fresh_engine (now limit : Z) : LSMEngine :=
  mkLSMEngine now [] Newline [] [] [] [] limit [].

(** A caller's write, and the engine it leaves, whether the call returned
    or raised. *)
Inductive request :=
| Put (key : string) (value : V)
| Delete (key : string).

Definition serve (e : LSMEngine) (r : request) : LSMEngine :=
  match r with
  | Put key value => snd (LSMEngine_put key value e)
  | Delete key => snd (LSMEngine_delete key e)
  end.

Definition serve_all (e : LSMEngine) (rs : list request) : LSMEngine :=
  fold_left serve rs e.

End Storage.

Arguments wal_line : clear implicits.
Arguments sst_line : clear implicits.
Arguments LSMEngine : clear implicits.
Arguments request : clear implicits.

(** ** The document layer: [schema.py], [wrapper.py], [collection.py] *)

(** A document: a Python [dict] from field names to values. *)
Definition doc : Type := dict value.

(** [doc.get(field)] *)
Definition doc_get (field : string) (d : doc) : value :=
  match dict_get field d with Some v => v | None => VNone end.

(** A [str] the engine stores for a collection, as [json.loads] sees it:
    the JSON text of a document, or a text that is not JSON. *)
Inductive text :=
| Json (d : doc)
| NotJson (s : string).

(** [sys.get_int_max_str_digits()]: the most decimal digits an [int] may
    have to be turned into a [str] or read from one. *)
Definition int_max_str_digits : Z := 4300.

(** The number of decimal digits of an [int], its sign left out. *)
Definition digits (z : Z) : nat :=
  match Z.to_int z with
  | Decimal.Pos d | Decimal.Neg d => Decimal.nb_digits d
  end.

(** Whether [json] writes and reads every [int] of a document. *)
Definition within_digit_limit (d : doc) : bool :=
  forallb (fun kv => match snd kv with
                     | VInt z => (Z.of_nat (digits z) <=? int_max_str_digits)%Z
                     | _ => true
                     end) d.

(** [json.dumps(doc)] *)
Definition json_dumps (d : doc) : outcome text :=
  if within_digit_limit d then Returned (Json d) else Raised (ValueError DigitLimit).

(** [json.loads(raw)] *)
Definition json_loads (raw : text) : outcome doc :=
  match raw with
  | Json d => if within_digit_limit d then Returned d else Raised (ValueError DigitLimit)
  | NotJson _ => Raised JSONDecodeError
  end.

(** [a == b] on values: a [bool] compares as the integer it is. *)
Definition as_int (v : value) : option Z :=
  match v with
  | VBool b => Some (if b then 1 else 0)%Z
  | VInt z => Some z
  | _ => None
  end.

Definition py_eq (a b : value) : bool :=
  match a, b with
  | VNone, VNone => true
  | VStr s, VStr t => String.eqb s t
  | _, _ =>
      match as_int a, as_int b with
      | Some x, Some y => Z.eqb x y
      | _, _ => false
      end
  end.

(** [isinstance(val, t)] *)
Definition isinstance (val : value) (t : pytype) : bool :=
  match val, t with
  | VStr _, Tstr => true
  | VInt _, Tint => true
  | VBool _, Tbool => true
  | VBool _, Tint => true
  | _, _ => false
  end.

(** *** schema.py *)

(** The ["length"] rule: a [dict] with keys among [gt], [gte], [lt], [lte]. *)
Record length_rules := mkLength {
  len_gt : option Z;
  len_gte : option Z;
  len_lt : option Z;
  len_lte : option Z
}.

(** The rule set of one field: a [dict] with keys among ["type"],
    ["unique"], ["length"], ["$gt"], ["$gte"], ["$lt"], ["$lte"], ["enum"]
    and ["ref"]; [None] is a key that is not there. *)
Record rules := mkRules {
  r_type : option pytype;
  r_unique : option bool;
  r_length : option length_rules;
  r_gt : option Z;
  r_gte : option Z;
  r_lt : option Z;
  r_lte : option Z;
  r_enum : option (list value);
  r_ref : option string
}.

(** [rules.get("unique")] as a condition. *)
Definition unique_truthy (r : rules) : bool :=
  match r_unique r with Some true => true | _ => false end.

(** ["unique" in rules] *)
Definition unique_in (r : rules) : bool :=
  match r_unique r with Some _ => true | None => false end.

(** A [Schema] object: [fields], and the registry [_unique_values] of the
    values seen for each unique field (a [set] per field). *)
Record Schema := mkSchema {
  fields : dict rules;
  _unique_values : dict (list value)
}.

(** [Schema.__init__], schema.py 4-16. *)
Definition Schema_init (fs : dict rules) : Schema :=
  mkSchema fs (map (fun fr => (fst fr, [])) (filter (fun fr => unique_truthy (snd fr)) fs)).

(** *** collection.py, the reading part *)

(** A [Collection] object together with the engine and the schema it
    refers to. *)
Record Collection := mkCollection {
  engine : LSMEngine text;
  prefix : string;
  schema : option Schema
}.

Definition set_engine (e : LSMEngine text) (c : Collection) : Collection :=
  mkCollection e (prefix c) (schema c).

Definition set_schema (s : option Schema) (c : Collection) : Collection :=
  mkCollection (engine c) (prefix c) s.

(** [DocumentWrapper], wrapper.py. *)
Record DocumentWrapper := mkDocument {
  _id : string;
  _doc : doc
}.

(** [Collection._k], collection.py 15-16. *)
Definition _k (c : Collection) (doc_id : string) : string := prefix c ++ doc_id.

(** [Collection._from_stored], collection.py 23-24. *)
Definition _from_stored (raw : text) : outcome doc := json_loads raw.

(** [Collection.get], collection.py 58-60. *)
Definition Collection_get (c : Collection) (doc_id : string) : outcome (option doc) :=
  raw <- LSMEngine_get (_k c doc_id) (engine c) ;;
  match raw with
  | Some r => d <- _from_stored r ;; ret (Some d)
  | None => ret None
  end.

(** [k.startswith(prefix)] *)
Definition startswith (k pfx : string) : bool := String.prefix pfx k.

(** [k[len(p):]] for a [k] that starts with [p], where [n] is the number of
    bytes of [p]: the code points of [p] are dropped with its bytes. *)
Fixpoint str_from (n : nat) (k : string) : string :=
  match n, k with
  | O, _ => k
  | S n', String _ k' => str_from n' k'
  | S _, EmptyString => EmptyString
  end.

(** [x in seen] and [seen.add(x)] on a [set] of [str]. *)
Definition set_mem (x : string) (seen : list string) : bool :=
  existsb (String.eqb x) seen.

Definition set_add (x : string) (seen : list string) : list string :=
  if set_mem x seen then seen else x :: seen.

(** The first loop of [Collection._scan_docs], collection.py 108-114, over
    the memtable entries left; [next] is what the generator does after it. *)
Fixpoint scan_memtable (pfx : string) (items : list (string * option text))
    (seen : list string) (next : list string -> gen (string * doc))
  : gen (string * doc) :=
  match items with
  | [] => next seen
  | (k, v) :: rest =>
      if negb (startswith k pfx) || is_None v then scan_memtable pfx rest seen next
      else
        match v with
        | None => scan_memtable pfx rest seen next
        | Some raw =>
            let doc_id := str_from (String.length pfx) k in
            match _from_stored raw with
            | Raised e => [Throw e]
            | Returned d =>
                Yield (doc_id, d) :: scan_memtable pfx rest (set_add doc_id seen) next
            end
        end
  end.

(** The inner loop of [Collection._scan_docs], collection.py 118-133, over
    the lines left in one data file. *)
Fixpoint scan_data_lines (pfx : string) (lines : list (sst_line text))
    (seen : list string) (next : list string -> gen (string * doc))
  : gen (string * doc) :=
  match lines with
  | [] => next seen
  | SBlank :: rest => scan_data_lines pfx rest seen next
  | SCorrupt :: _ => [Throw JSONDecodeError]
  | SRec k v :: rest =>
      if negb (startswith k pfx) then scan_data_lines pfx rest seen next
      else
        let doc_id := str_from (String.length pfx) k in
        if set_mem doc_id seen then scan_data_lines pfx rest seen next
        else
          match v with
          | None => scan_data_lines pfx rest seen next
          | Some raw =>
              match _from_stored raw with
              | Raised e => [Throw e]
              | Returned d =>
                  Yield (doc_id, d) :: scan_data_lines pfx rest (set_add doc_id seen) next
              end
          end
  end.

(** The second loop of [Collection._scan_docs], collection.py 116-133, over
    the tables left, newest first. *)
Fixpoint scan_tables (pfx : string) (ssts : list SSTable) (e : LSMEngine text)
    (seen : list string) : gen (string * doc) :=
  match ssts with
  | [] => []
  | sst :: rest =>
      match dict_get (data_path sst) (data_files e) with
      | None => [Throw (FileNotFoundError (data_path sst))]
      | Some lines =>
          scan_data_lines pfx lines seen (fun seen' => scan_tables pfx rest e seen')
      end
  end.

(** [Collection._scan_docs], collection.py 105-133. *)
Definition _scan_docs (c : Collection) : gen (string * doc) :=
  scan_memtable (prefix c) (memtable (engine c)) []
    (fun seen => scan_tables (prefix c) (rev (sstables (engine c))) (engine c) seen).

(** The loop of [Collection.find_all], collection.py 137-141, called with
    no filter and no limit: [_matches(doc, None)] is [True]. *)
Fixpoint collect (g : gen (string * doc)) (results : list DocumentWrapper)
  : outcome (list DocumentWrapper) :=
  match g with
  | [] => Returned results
  | Throw e :: _ => Raised e
  | Yield (doc_id, d) :: rest => collect rest (results ++ [mkDocument doc_id d])%list
  end.

(** [Collection.find_all()], collection.py 135-142. *)
Definition Collection_find_all (c : Collection) : outcome (list DocumentWrapper) :=
  collect (_scan_docs c) [].

(** *** schema.py, validation *)

(** [if not ok: raise e] *)
Definition require (ok : bool) (e : exn) : outcome unit :=
  if ok then Returned tt else Raised e.

(** [if op in bounds and not ok(bounds[op]): raise e(bounds[op])] *)
Definition require_bound (bound : option Z) (ok : Z -> bool) (e : Z -> exn)
  : outcome unit :=
  match bound with
  | Some b => require (ok b) (e b)
  | None => Returned tt
  end.

(** The type check, schema.py 36-37. *)
Definition check_type (field : string) (r : rules) (val : value) : outcome unit :=
  match r_type r with
  | Some t => require (isinstance val t) (TypeError (FieldType field))
  | None => Returned tt
  end.

(** The unique constraint, schema.py 40-45. *)
Definition check_unique (s : Schema) (field : string) (r : rules) (val : value)
    (existing_docs : list doc) : outcome unit :=
  if unique_truthy r then
    require (negb (existsb (fun d => py_eq (doc_get field d) val) existing_docs))
            (ValueError (Duplicate field val)) ;;
    match dict_get field (_unique_values s) with
    | None => Raised (KeyError field)
    | Some seen =>
        require (negb (existsb (py_eq val) seen)) (ValueError (Duplicate field val))
    end
  else Returned tt.

(** Whether a byte continues a code point of UTF-8 ([10xxxxxx]) rather
    than starts one. *)
Definition is_continuation (a : ascii) : bool :=
  match a with
  | Ascii _ _ _ _ _ _ false true => true
  | _ => false
  end.

(** [len(s)] on a [str]: the number of its code points. *)
Fixpoint py_len (s : string) : nat :=
  match s with
  | EmptyString => O
  | String a rest => if is_continuation a then py_len rest else S (py_len rest)
  end.

(** The length constraint, schema.py 48-57. *)
Definition check_length (field : string) (r : rules) (val : value) : outcome unit :=
  match val, r_length r with
  | VStr v, Some lr =>
      let n := Z.of_nat (py_len v) in
      require_bound (len_gt lr) (fun b => (n >? b)%Z)
                    (fun b => ValueError (LengthBound field "gt" b)) ;;
      require_bound (len_gte lr) (fun b => (n >=? b)%Z)
                    (fun b => ValueError (LengthBound field "gte" b)) ;;
      require_bound (len_lt lr) (fun b => (n <? b)%Z)
                    (fun b => ValueError (LengthBound field "lt" b)) ;;
      require_bound (len_lte lr) (fun b => (n <=? b)%Z)
                    (fun b => ValueError (LengthBound field "lte" b))
  | _, _ => Returned tt
  end.

(** The numeric constraints, schema.py 60-70. *)
Definition check_numeric (field : string) (r : rules) (val : value) : outcome unit :=
  match as_int val with
  | Some n =>
      require_bound (r_gt r) (fun b => (n >? b)%Z)
                    (fun b => ValueError (NumericBound field "$gt" b)) ;;
      require_bound (r_gte r) (fun b => (n >=? b)%Z)
                    (fun b => ValueError (NumericBound field "$gte" b)) ;;
      require_bound (r_lt r) (fun b => (n <? b)%Z)
                    (fun b => ValueError (NumericBound field "$lt" b)) ;;
      require_bound (r_lte r) (fun b => (n <=? b)%Z)
                    (fun b => ValueError (NumericBound field "$lte" b))
  | None => Returned tt
  end.

(** The enum constraint, schema.py 73-75. *)
Definition check_enum (field : string) (r : rules) (val : value) : outcome unit :=
  match r_enum r with
  | Some allowed => require (existsb (py_eq val) allowed) (ValueError (NotInEnum field val))
  | None => Returned tt
  end.

(** A document as a condition: [None] and the empty [dict] are false. *)
Definition doc_truthy (d : option doc) : bool :=
  match d with
  | Some (_ :: _) => true
  | _ => false
  end.

(** The reference check, schema.py 78-82.  A [Collection] object is always
    true as a condition; [ref_collection.get(val)] concatenates the prefix,
    a [str], with [val]. *)
Definition check_ref (field : string) (r : rules) (val : value)
    (collections : dict Collection) : outcome unit :=
  match r_ref r with
  | Some ref_collection_name =>
      match dict_get ref_collection_name collections with
      | Some ref_collection =>
          found <- match val with
                   | VStr doc_id => Collection_get ref_collection doc_id
                   | _ => Raised (TypeError CannotConcat)
                   end ;;
          require (doc_truthy found)
                  (ValueError (DanglingRef field val ref_collection_name))
      | None => Returned tt
      end
  | None => Returned tt
  end.

(** The body of the loop of [Schema.validate], schema.py 29-82. *)
Definition validate_field (s : Schema) (d : doc) (existing_docs : list doc)
    (collections : dict Collection) (field : string) (r : rules) : outcome unit :=
  match doc_get field d with
  | VNone => Returned tt
  | val =>
      check_type field r val ;;
      check_unique s field r val existing_docs ;;
      check_length field r val ;;
      check_numeric field r val ;;
      check_enum field r val ;;
      check_ref field r val collections
  end.

(** The loop of [Schema.validate], schema.py 28-82, over the fields left. *)
Fixpoint validate_fields (s : Schema) (d : doc) (existing_docs : list doc)
    (collections : dict Collection) (fs : dict rules) : outcome unit :=
  match fs with
  | [] => Returned tt
  | (field, r) :: rest =>
      validate_field s d existing_docs collections field r ;;
      validate_fields s d existing_docs collections rest
  end.

(** [Schema.validate], schema.py 18-84; an argument left out or [None] is
    the empty list or [dict]. *)
Definition Schema_validate (s : Schema) (d : doc) (existing_docs : list doc)
    (collections : dict Collection) : outcome bool :=
  validate_fields s d existing_docs collections (fields s) ;;
  ret true.

(** [self._unique_values[f].add(val)] *)
Definition values_add (val : value) (seen : list value) : list value :=
  if existsb (py_eq val) seen then seen else val :: seen.

(** [Schema.register], schema.py 86-91. *)
Definition Schema_register (s : Schema) (d : doc) : Schema :=
  mkSchema (fields s)
    (map (fun fv => match doc_get (fst fv) d with
                    | VNone => fv
                    | val => (fst fv, values_add val (snd fv))
                    end) (_unique_values s)).

(** *** collection.py, the writing part *)

(** The attributes of a [Collection] object: those [__init__] sets and the
    methods of the class. *)
Definition Collection_attrs : list string :=
  ["engine"; "prefix"; "schema"; "_k"; "_to_stored"; "_from_stored"; "insert";
   "get"; "update"; "_scan_docs"; "find_all"; "find_one"; "find"; "_matches"].

(** [Collection._to_stored], collection.py 18-21. *)
Definition _to_stored (c : Collection) (d : doc) : outcome text :=
  match schema c with
  | Some s => Schema_validate s d [] [] ;; json_dumps d
  | None => json_dumps d
  end.

(** A call of an engine method from a collection method. *)
Definition on_engine {A : Type} (m : M (LSMEngine text) A) : M Collection A :=
  fun c => match m (engine c) with (r, e') => (r, set_engine e' c) end.

(** [self.schema and any("unique" in rules for rules in
    self.schema.fields.values())] *)
Definition has_unique_rule (c : Collection) : bool :=
  match schema c with
  | Some s => existsb (fun fr => unique_in (snd fr)) (fields s)
  | None => false
  end.

(** [if self.schema: self.schema.validate(doc, existing_docs=existing,
    collections=collections)] *)
Definition validate_if_schema (c : Collection) (d : doc) (existing : list doc)
    (collections : dict Collection) : outcome unit :=
  match schema c with
  | Some s => Schema_validate s d existing collections ;; ret tt
  | None => Returned tt
  end.

(** [if self.schema: self.schema.register(doc)] *)
Definition registered (d : doc) (c : Collection) : Collection :=
  match schema c with
  | Some s => set_schema (Some (Schema_register s d)) c
  | None => c
  end.

Definition register_if_schema (d : doc) : M Collection unit :=
  modify (registered d).

(** The documents [insert] gathers for the unique check, collection.py
    38-40. *)
Definition gather_existing (c : Collection) : outcome (list doc) :=
  if has_unique_rule c
  then found <- Collection_find_all c ;; ret (map _doc found)
  else ret [].

(** The documents [update] gathers for the unique check, collection.py
    87-89: those of [insert] but the one under [doc_id]. *)
Definition gather_others (doc_id : string) (c : Collection) : outcome (list doc) :=
  if has_unique_rule c
  then found <- Collection_find_all c ;;
       ret (map _doc (filter (fun w => negb (String.eqb (_id w) doc_id)) found))
  else ret [].

(** [Collection.insert], collection.py 26-56.  [uuid4] is the identifier
    [str(uuid.uuid4())] yields when it is asked for one. *)
Definition Collection_insert (uuid4 : string) (d : doc) (doc_id : option string)
    (collections : dict Collection) : M Collection string :=
  let doc_id := match doc_id with Some i => i | None => uuid4 end in
  c <- get_state ;;
  existing <- reads gather_existing ;;
  reads (fun c => validate_if_schema c d existing collections) ;;
  stored <- reads (fun c => _to_stored c d) ;;
  on_engine (LSMEngine_put (_k c doc_id) stored) ;;
  register_if_schema d ;;
  ret doc_id.

(** [Collection.update], collection.py 62-103.  Line 76 looks [model_cls]
    up on the collection, which nothing ever sets; the lines after it are
    those of the [else] branch, the one for plain mappings. *)
Definition Collection_update (doc_id : string) (updates : doc)
    (collections : dict Collection) : M Collection unit :=
  c <- get_state ;;
  cur <- reads (fun c => Collection_get c doc_id) ;;
  match cur with
  | None => raise (KeyError doc_id)
  | Some cur =>
      getattr Collection_attrs "model_cls" ;;
      let new_doc := dict_update cur updates in
      existing <- reads (gather_others doc_id) ;;
      reads (fun c => validate_if_schema c new_doc existing collections) ;;
      stored <- reads (fun c => _to_stored c new_doc) ;;
      on_engine (LSMEngine_put (_k c doc_id) stored) ;;
      register_if_schema new_doc
  end.

(** ** The storage engine: opening and closing, [lsm.py] 12-21 and 100-102 *)

Section Lifecycle.

Context {V : Type}.

Definition set_memtable_limit (n : Z) (e : LSMEngine V) : LSMEngine V :=
  mkLSMEngine (clock e) (wal_log e) (wal_end e) (wal_archive e) (data_files e) (index_files e)
              (memtable e) n (sstables e).

(** [name.endswith(sfx)] *)
Definition endswith (name sfx : string) : bool :=
  (String.length sfx <=? String.length name)%nat
  && String.eqb (str_from (String.length name - String.length sfx) name) sfx.

(** Whether a file name matches the pattern ['sst_*.jsonl']. *)
Definition is_sst_data (name : string) : bool :=
  startswith name "sst_" && endswith name ".jsonl".

(** The names of the files of the data directory once [WAL.__init__] has
    opened [wal.log] in mode [a+]. *)
Definition listdir (e : LSMEngine V) : list string :=
  ("wal.log" :: dict_keys (wal_archive e) ++ dict_keys (data_files e)
             ++ dict_keys (index_files e))%list.

(** [sorted(self.dir.glob('sst_*.jsonl'))]: paths of one directory compare
    as their names do. *)
Definition sorted_tables (e : LSMEngine V) : list string :=
  map fst (sorted_by_key (map (fun name => (name, tt)) (filter is_sst_data (listdir e)))).

(** The loop of [LSMEngine.__init__], lsm.py 20-21, over the paths left. *)
Fixpoint open_tables (paths : list string) : M (LSMEngine V) unit :=
  match paths with
  | [] => ret tt
  | fp :: rest =>
      sst <- SSTable_init fp ;;
      modify (fun e => set_sstables (sstables e ++ [sst])%list e) ;;
      open_tables rest
  end.

(** [LSMEngine.__init__], lsm.py 12-21, run on the directory and clock of
    the state it starts from: the fields [memtable], [memtable_limit] and
    [sstables] of that state are not read, they are what the constructor
    sets.  When it raises there is no engine. *)
Definition LSMEngine_init (limit : Z) : M (LSMEngine V) unit :=
  mem <- reads WAL_replay ;;
  modify (set_memtable mem) ;;
  modify (set_memtable_limit limit) ;;
  modify (set_sstables []) ;;
  e <- get_state ;;
  open_tables (sorted_tables e).

(** Whether the handle [self.wal.f] is open. *)
Inductive handle := Open | Closed.

(** [LSMEngine.close], lsm.py 100-102, on the engine and the handle of its
    log: [self.wal.close()] runs only when [self.flush()] returned, and
    [flush] raises only before it would touch the handle. *)
Definition LSMEngine_close : M (LSMEngine V * handle) unit :=
  fun s =>
    match LSMEngine_flush (fst s) with
    | (Returned _, e') => (Returned tt, (e', Closed))
    | (Raised ex, e') => (Raised ex, (e', snd s))
    end.

(** Time passing: the clock reads [now]. *)
Definition set_clock (now : Z) (e : LSMEngine V) : LSMEngine V :=
  mkLSMEngine now (wal_log e) (wal_end e) (wal_archive e) (data_files e) (index_files e)
              (memtable e) (memtable_limit e) (sstables e).

(** The engines a run of the code can hold: the one
    [LSMEngine(data_dir, memtable_limit)] builds when it returns, on any
    directory, and the one a call of [put], [delete], [flush] or [compact]
    leaves, returned or raised, as time passes.  ([get] changes nothing,
    and [close] changes what its [flush] does.) *)
Inductive reachable : LSMEngine V -> Prop :=
| reach_init limit dir e :
    LSMEngine_init limit dir = (Returned tt, e) -> reachable e
| reach_put key value e :
    reachable e -> reachable (snd (LSMEngine_put key value e))
| reach_delete key e :
    reachable e -> reachable (snd (LSMEngine_delete key e))
| reach_flush e :
    reachable e -> reachable (snd (LSMEngine_flush e))
| reach_compact e :
    reachable e -> reachable (snd (LSMEngine_compact e))
| reach_tick now e :
    reachable e -> reachable (set_clock now e).

End Lifecycle.

(** ** [store.py] *)

(** A [DocumentStore]: its engine, the handle of the engine's log, and
    the registry [collections].  A registered [Collection] object refers
    to the store's engine and has the prefix [<name>:], so the registry
    keeps, per name, the schema the object was built with. *)
Record DocumentStore := mkStore {
  store_engine : LSMEngine text;
  store_wal : handle;
  collections : dict (option Schema)
}.

(** The [Collection] object registered under [name] with schema [s],
    collection.py 10-13. *)
Definition collection_object (st : DocumentStore) (name : string) (s : option Schema)
  : Collection :=
  mkCollection (store_engine st) (name ++ ":") s.

(** [DocumentStore.__init__], store.py 8-10: [LSMEngine(data_dir)] with the
    default [memtable_limit] of 2000, run on the directory of [dir]. *)
Definition DocumentStore_init (dir : LSMEngine text) : outcome DocumentStore :=
  match LSMEngine_init 2000 dir with
  | (Returned _, e) => Returned (mkStore e Open [])
  | (Raised ex, _) => Raised ex
  end.

(** [DocumentStore.collection], store.py 13-16. *)
Definition DocumentStore_collection (name : string) (s : option Schema)
  : M DocumentStore Collection :=
  st <- get_state ;;
  (if dict_has name (collections st) then ret tt
   else modify (fun st => mkStore (store_engine st) (store_wal st)
                                  (dict_set name s (collections st)))) ;;
  st <- get_state ;;
  match dict_get name (collections st) with
  | Some s' => ret (collection_object st name s')
  | None => raise (KeyError name)
  end.

(** [DocumentStore.compact], store.py 19-20. *)
Definition DocumentStore_compact : M DocumentStore unit :=
  fun st => match LSMEngine_compact (store_engine st) with
            | (r, e') => (r, mkStore e' (store_wal st) (collections st))
            end.

(** [DocumentStore.close], store.py 23-24. *)
Definition DocumentStore_close : M DocumentStore unit :=
  fun st => match LSMEngine_close (store_engine st, store_wal st) with
            | (r, (e', h)) => (r, mkStore e' h (collections st))
            end.

(** Running a method of the collection registered under [name]: it works
    on the store's engine and on the schema object of that collection. *)
Definition in_collection {A : Type} (name : string) (m : M Collection A)
  : M DocumentStore A :=
  fun st =>
    match dict_get name (collections st) with
    | None => (Raised (KeyError name), st)
    | Some s =>
        match m (collection_object st name s) with
        | (r, c') => (r, mkStore (engine c') (store_wal st)
                                 (dict_set name (schema c') (collections st)))
        end
    end.

(** ** Queries: [Collection._matches], [find_all], [find_one], [find] *)

(** What a query can raise: an exception of the scan, or the [TypeError]
    of an ordering comparison [val <op> cmp_val] between values Python
    does not order. *)
Inductive query_exn :=
| ScanError (e : exn)
| NotComparable (val cmp_val : value).

Inductive answer (A : Type) :=
| Answered (a : A)
| Failed (e : query_exn).

Arguments Answered {A} a.
Arguments Failed {A} e.

#[global] Instance answer_monad : Monad answer := {|
  ret := fun A a => Answered a;
  bind := fun A B m k => match m with Answered a => k a | Failed e => Failed e end
|}.

(** The entry of a filter for one field: a literal to equal, or a [dict]
    from operators to the values to compare with. *)
Inductive cond :=
| Literal (v : value)
| Ops (ops : dict value).

(** How Python orders two values: integers and booleans as numbers, two
    [str] by code points; any other pair is not ordered. *)
Definition py_compare (a b : value) : option comparison :=
  match as_int a, as_int b with
  | Some x, Some y => Some (Z.compare x y)
  | _, _ =>
      match a, b with
      | VStr s, VStr t => Some (String.compare s t)
      | _, _ => None
      end
  end.

(** [val <op> cmp_val] for an ordering operator that holds on the
    comparisons [holds] accepts. *)
Definition py_order (holds : comparison -> bool) (val cmp_val : value) : answer bool :=
  match py_compare val cmp_val with
  | Some c => Answered (holds c)
  | None => Failed (NotComparable val cmp_val)
  end.

Definition is_Gt (c : comparison) : bool := match c with Gt => true | _ => false end.
Definition is_Lt (c : comparison) : bool := match c with Lt => true | _ => false end.

(** One turn of the inner loop of [_matches], collection.py 158-168:
    [false] where the turn returns [False]. *)
Definition op_holds (op : string) (val cmp_val : value) : answer bool :=
  if String.eqb op "$eq" then Answered (py_eq val cmp_val)
  else if String.eqb op "$gt" then py_order is_Gt val cmp_val
  else if String.eqb op "$gte" then py_order (fun c => negb (is_Lt c)) val cmp_val
  else if String.eqb op "$lt" then py_order is_Lt val cmp_val
  else if String.eqb op "$lte" then py_order (fun c => negb (is_Gt c)) val cmp_val
  else Answered true.

(** The inner loop of [_matches], collection.py 158-168. *)
Fixpoint ops_hold (val : value) (ops : dict value) : answer bool :=
  match ops with
  | [] => Answered true
  | (op, cmp_val) :: rest =>
      ok <- op_holds op val cmp_val ;;
      if (ok : bool) then ops_hold val rest else Answered false
  end.

(** The body of the outer loop of [_matches], collection.py 156-171. *)
Definition cond_holds (d : doc) (field : string) (c : cond) : answer bool :=
  let val := doc_get field d in
  match c with
  | Ops ops => ops_hold val ops
  | Literal v => Answered (py_eq val v)
  end.

(** The outer loop of [_matches], collection.py 155-172. *)
Fixpoint filter_holds (d : doc) (entries : dict cond) : answer bool :=
  match entries with
  | [] => Answered true
  | (field, c) :: rest =>
      ok <- cond_holds d field c ;;
      if (ok : bool) then filter_holds d rest else Answered false
  end.

(** [Collection._matches], collection.py 151-172. *)
Definition _matches (d : doc) (filter : option (dict cond)) : answer bool :=
  match filter with
  | None => Answered true
  | Some entries => filter_holds d entries
  end.

(** [limit and len(results) >= limit], collection.py 140: [None] and [0]
    are false as conditions. *)
Definition limit_reached (limit : option Z) (results : list DocumentWrapper) : bool :=
  match limit with
  | Some n => negb (Z.eqb n 0) && (len results >=? n)%Z
  | None => false
  end.

(** The loop of [Collection.find_all], collection.py 137-141, over what
    the scan has left to yield. *)
Fixpoint collect_matching (filter : option (dict cond)) (limit : option Z)
    (g : gen (string * doc)) (results : list DocumentWrapper)
  : answer (list DocumentWrapper) :=
  match g with
  | [] => Answered results
  | Throw e :: _ => Failed (ScanError e)
  | Yield (doc_id, d) :: rest =>
      ok <- _matches d filter ;;
      if (ok : bool) then
        let results := (results ++ [mkDocument doc_id d])%list in
        if limit_reached limit results then Answered results
        else collect_matching filter limit rest results
      else collect_matching filter limit rest results
  end.

(** [Collection.find_all], collection.py 135-142. *)
Definition Collection_find_all_with (filter : option (dict cond)) (limit : option Z)
    (c : Collection) : answer (list DocumentWrapper) :=
  collect_matching filter limit (_scan_docs c) [].

(** [Collection.find_one], collection.py 144-146. *)
Definition Collection_find_one (filter : option (dict cond)) (c : Collection)
  : answer (option DocumentWrapper) :=
  docs <- Collection_find_all_with filter (Some 1%Z) c ;;
  ret (match docs with w :: _ => Some w | [] => None end).

(** [Collection.find], collection.py 148-149. *)
Definition Collection_find (filter : option (dict cond)) (limit : option Z)
    (c : Collection) : answer (list DocumentWrapper) :=
  Collection_find_all_with filter limit c.

(** ** What the specification promises, for comparison *)

Section Promised.

Context {V : Type}.

(** The mapping the records of a log fold into: a put sets [key -> value],
    a del sets [key -> absent]. *)
Definition apply_record (mem : dict (option V)) (l : wal_line V) : dict (option V) :=
  match l with
  | WRec op key value =>
      if String.eqb op "put" then dict_set key value mem
      else if String.eqb op "del" then dict_set key None mem
      else mem
  | _ => mem
  end.

Definition committed (lines : list (wal_line V)) : dict (option V) :=
  fold_left apply_record lines [].

(** A line [json.loads] accepts, or a blank one. *)
Definition parseable (l : wal_line V) : Prop := l <> WCorrupt.

(** The first record of a data file under [key], if it holds one. *)
Fixpoint record_of (key : string) (lines : list (sst_line V)) : option (option V) :=
  match lines with
  | [] => None
  | SRec k v :: rest => if String.eqb k key then Some v else record_of key rest
  | _ :: rest => record_of key rest
  end.

(** Newest-wins resolution of [key] over data files listed newest first. *)
Fixpoint resolve (key : string) (files : list (list (sst_line V))) : option (option V) :=
  match files with
  | [] => None
  | lines :: older =>
      match record_of key lines with
      | Some v => Some v
      | None => resolve key older
      end
  end.

(** The data file of a table; one that is not there holds no record. *)
Definition file_of (e : LSMEngine V) (sst : SSTable) : list (sst_line V) :=
  match dict_get (data_path sst) (data_files e) with
  | Some lines => lines
  | None => []
  end.

(** The data files of the engine's tables, newest first. *)
Definition table_files (e : LSMEngine V) : list (list (sst_line V)) :=
  map (file_of e) (rev (sstables e)).


(** A line of a data file that comes before the record of [key] in key
    order: blank, or a record under a smaller key. *)
Definition before_key (key : string) (l : sst_line V) : Prop :=
  match l with
  | SBlank => True
  | SCorrupt => False
  | SRec k _ => String.ltb k key = true
  end.

End Promised.

(** A document kept under the key [<prefix><doc_id>] with a present
    value, in the memtable or in the data file of one of the tables. *)
Definition stored_under (c : Collection) (doc_id : string) (d : doc) : Prop :=
  In (prefix c ++ doc_id, Some (Json d)) (memtable (engine c))
  \/ exists lines, In lines (table_files (engine c))
                   /\ In (SRec (prefix c ++ doc_id) (Some (Json d))) lines.

(** ** Engines and collections the statements below are evaluated on *)

(** Two tables without index entries, an older and a newer one. *)
Definition sst_older : SSTable := mkSSTable "sst_1.jsonl" [].
Definition sst_newer : SSTable := mkSSTable "sst_2.jsonl" [].

(** An engine on a new directory that flushes at the first entry. *)
Definition tiny_engine : LSMEngine string := fresh_engine 0 1.

(** Two tables without index entries that overlap: the newer one
    rewrites ["a"] and deletes ["k"]. *)
Definition layered_engine : LSMEngine string :=
  mkLSMEngine 3 [] Newline []
    [("sst_1.jsonl", [SRec "a" (Some "1"); SRec "k" (Some "v")]);
     ("sst_2.jsonl", [SRec "a" (Some "2"); SBlank; SRec "k" None])]
    [("sst_1.jsonl.idx", []); ("sst_2.jsonl.idx", [])]
    [] 2000 [sst_older; sst_newer].

(** A log whose second line was torn by a crash. *)
Definition torn_engine : LSMEngine string :=
  mkLSMEngine 0 [WRec "put" "a" (Some "1"); WCorrupt] Text [] [] [] [] 2000 [].

(** The documents and schemas of [main.py], and a schema that lists [age]
    before the unique [name]. *)
Definition bob : doc := [("name", VStr "Bob"); ("age", VInt 30); ("role", VStr "member")].
Definition bob_older : doc := [("name", VStr "Bob"); ("age", VInt 40); ("role", VStr "guest")].

Definition name_rules : rules :=
  mkRules (Some Tstr) (Some true) (Some (mkLength None (Some 3%Z) None None))
          None None None None None None.
Definition age_rules : rules :=
  mkRules (Some Tint) None None None (Some 0%Z) None (Some 100%Z) None None.
Definition role_rules : rules :=
  mkRules (Some Tstr) None None None None None None
          (Some [VStr "admin"; VStr "member"; VStr "guest"]) None.

Definition user_schema : Schema :=
  Schema_init [("name", name_rules); ("age", age_rules); ("role", role_rules)].

(** [store.collection("users", schema)] on a new directory, and the same
    after [insert(d, doc_id="1")]. *)
Definition users (s : option Schema) : Collection :=
  mkCollection (fresh_engine 0 2000) "users:" s.

Definition users_with (s : option Schema) (d : doc) : Collection :=
  snd (Collection_insert "uuid" d (Some "1") [] (users s)).

(** A collection whose memtable holds a tombstone for ["users:1"] over a
    table that holds Bob under it. *)
Definition tombstoned_users : Collection :=
  mkCollection
    (mkLSMEngine 2 [] Newline []
       [("sst_1.jsonl", [SRec "users:1" (Some (Json bob))])]
       [("sst_1.jsonl.idx", [])]
       [("users:1", None)] 2000 [mkSSTable "sst_1.jsonl" []])
    "users:" None.

(** ** More to compare with, and more to evaluate on *)

Section Latest.

Context {V : Type}.

(** The value of the latest [Put] of [key] among the requests, if any. *)
Fixpoint last_put (key : string) (rs : list (request V)) : option V :=
  match rs with
  | [] => None
  | r :: rest =>
      match last_put key rest with
      | Some v => Some v
      | None =>
          match r with
          | Put k v => if String.eqb k key then Some v else None
          | Delete _ => None
          end
      end
  end.

(** What the latest record of [key] in a log says: a value put, [None] for
    a del; no answer when the log has no put or del record of [key]. *)
Fixpoint last_record (key : string) (lines : list (wal_line V)) : option (option V) :=
  match lines with
  | [] => None
  | l :: rest =>
      match last_record key rest with
      | Some v => Some v
      | None =>
          match l with
          | WRec op k value =>
              if String.eqb k key then
                if String.eqb op "put" then Some value
                else if String.eqb op "del" then Some None
                else None
              else None
          | _ => None
          end
      end
  end.

(** A directory as [put] and [delete] calls leave it: the log replays to
    the memtable and ends with a newline, and there is no table, data
    file, index file or archived log. *)
Definition only_logged (e : LSMEngine V) : Prop :=
  WAL_replay e = Returned (memtable e)
  /\ sstables e = [] /\ data_files e = [] /\ index_files e = [] /\ wal_archive e = []
  /\ wal_end e = Newline.

End Latest.

(** The identifier [insert] works with, collection.py 34-35. *)
Definition chosen_id (uuid : string) (doc_id : option string) : string :=
  match doc_id with Some i => i | None => uuid end.

(** The value as [==] and a [set] see it: a boolean is the integer it
    equals. *)
Definition canon (v : value) : value :=
  match v with
  | VBool b => VInt (if b then 1 else 0)
  | _ => v
  end.

(** The operators [_matches] knows. *)
Definition known_op (op : string) : bool :=
  existsb (String.eqb op) ["$eq"; "$gt"; "$gte"; "$lt"; "$lte"].

(** The ordering operators among them. *)
Definition ordering_op (op : string) : bool :=
  existsb (String.eqb op) ["$gt"; "$gte"; "$lt"; "$lte"].

(** A log with a rewrite, a del record and a line of another kind. *)
Definition logged_engine : LSMEngine string :=
  mkLSMEngine 0
    [WRec "put" "a" (Some "1"); WBlank; WRec "put" "b" (Some "2");
     WRec "del" "a" None; WRec "noop" "b" None]
    Newline [] [] [] [] 2000 [].

(** The engine [LSMEngine(data_dir)] builds on the directory of
    [logged_engine]. *)
Definition reopened_engine : LSMEngine string := snd (LSMEngine_init 2000 logged_engine).

(** A directory whose log holds one record that lacks its newline, and
    the engine opened on it. *)
Definition unterminated_dir : LSMEngine string :=
  mkLSMEngine 0 [WRec "put" "a" (Some "1")] Text [] [] [] [] 2000 [].

Definition unterminated_engine : LSMEngine string :=
  snd (LSMEngine_init 2000 unterminated_dir).

(** Three users in the memtable of a collection without schema. *)
Definition carol : doc := [("name", VStr "Carol"); ("age", VInt 41)].
Definition dave : doc := [("name", VStr "Dave"); ("age", VInt 17)].

Definition three_users : Collection :=
  snd (Collection_insert "u3" dave None []
        (snd (Collection_insert "u2" carol None [] (users_with None bob)))).



(** [{"age": {"$gte": 30}}] *)
Definition adults : option (dict cond) := Some [("age", Ops [("$gte", VInt 30)])].


(** The file schema of [main.py]. *)
Definition user_id_rules : rules :=
  mkRules (Some Tstr) None None None None None None None (Some "users").

Definition file_schema : Schema :=
  Schema_init
    [("filename", mkRules (Some Tstr) None (Some (mkLength None (Some 1%Z) None None))
                          None None None None None None);
     ("size", mkRules (Some Tint) None None None (Some 0%Z) None None None None);
     ("user_id", user_id_rules)].

Definition resume (user_id : string) : doc :=
  [("filename", VStr "resume.pdf"); ("size", VInt 12345); ("user_id", VStr user_id)].

(** * Facts *)

(** ** Outcomes *)

Lemma bind_Returned {A B : Type} (m : outcome A) (k : A -> outcome B) (b : B) :
  (x <- m ;; k x) = Returned b -> exists a, m = Returned a /\ k a = Returned b.
Proof. destruct m as [a|e]; simpl; [eauto | discriminate]. Qed.

(** In [H : (x <- m ;; k x) = Returned b], name [E] the equation that
    says [m] returned, and go on with [H : k a = Returned b]. *)
Ltac head_returns H E :=
  let a := fresh "a" in
  apply bind_Returned in H; destruct H as (a & E & H);
  match type of a with unit => destruct a | _ => idtac end.

(** ** The order on [str] *)

Lemma ltb_not_eqb (k key : string) :
  String.ltb k key = true -> String.eqb k key = false.
Proof.
  unfold String.ltb. intros Hlt. apply String.eqb_neq. intros ->.
  pose proof (String.compare_antisym key key) as Hanti.
  destruct (String.compare key key); simpl in *; discriminate.
Qed.

Lemma ltb_asym (k key : string) :
  String.ltb k key = true -> String.ltb key k = false.
Proof.
  unfold String.ltb. rewrite (String.compare_antisym key k).
  now destruct (String.compare k key).
Qed.

(** ** Dictionaries *)

Lemma dict_get_set_same {A : Type} (k : string) (v : A) (d : dict A) :
  dict_get k (dict_set k v d) = Some v.
Proof.
  induction d as [|[k' v'] rest IH]; simpl.
  - now rewrite String.eqb_refl.
  - destruct (String.eqb k' k) eqn:E; simpl; rewrite E; auto.
Qed.

Lemma dict_get_set_other {A : Type} (k k' : string) (v : A) (d : dict A) :
  k' <> k -> dict_get k' (dict_set k v d) = dict_get k' d.
Proof.
  intros Hne. induction d as [|[k0 v0] rest IH]; simpl.
  - destruct (String.eqb_spec k k'); congruence.
  - destruct (String.eqb_spec k0 k) as [->|Hk]; simpl.
    + destruct (String.eqb_spec k k'); congruence.
    + destruct (String.eqb_spec k0 k'); auto.
Qed.

Lemma dict_set_not_empty {A : Type} (k : string) (v : A) (d : dict A) :
  dict_set k v d <> [].
Proof.
  destruct d as [|[k' v'] rest]; simpl; [discriminate|].
  destruct (String.eqb k' k); discriminate.
Qed.

Lemma dict_get_of_key {A : Type} (k : string) (d : dict A) :
  In k (dict_keys d) -> exists v, dict_get k d = Some v.
Proof.
  induction d as [|[k' v'] rest IH]; simpl; [tauto|].
  intros [->|Hin].
  - rewrite String.eqb_refl. eauto.
  - destruct (String.eqb k' k); eauto.
Qed.

Lemma dict_has_set {A : Type} (k : string) (v : A) (d : dict A) :
  dict_has k (dict_set k v d) = true.
Proof. unfold dict_has. now rewrite dict_get_set_same. Qed.

Lemma max_str_is_candidate (c : string) (cs : list string) :
  In (max_str c cs) (c :: cs).
Proof.
  unfold max_str. revert c.
  induction cs as [|x rest IH]; intros c; simpl; [auto|].
  destruct (String.ltb c x).
  - destruct (IH x) as [E|Hin]; [rewrite <- E at 1|]; auto.
  - destruct (IH c) as [E|Hin]; auto.
Qed.

Lemma dict_get_None_not_key {A : Type} (k : string) (d : dict A) :
  dict_get k d = None -> ~ In k (dict_keys d).
Proof.
  intros Hnone Hin. destruct (dict_get_of_key k d Hin) as [v Hv]. congruence.
Qed.

Lemma dict_keys_set_absent {A : Type} (k : string) (v : A) (d : dict A) :
  dict_get k d = None -> dict_keys (dict_set k v d) = (dict_keys d ++ [k])%list.
Proof.
  induction d as [|[k' v'] rest IH]; simpl; [reflexivity|].
  destruct (String.eqb k' k); [discriminate|].
  intros H. simpl. now rewrite IH.
Qed.

Lemma NoDup_snoc {A : Type} (x : A) (l : list A) :
  NoDup l -> ~ In x l -> NoDup (l ++ [x])%list.
Proof.
  intros Hl Hx. apply NoDup_rev in Hl. rewrite <- (rev_involutive (l ++ [x])).
  apply NoDup_rev. rewrite rev_app_distr. simpl. constructor; [|exact Hl].
  now rewrite <- in_rev.
Qed.

(** Looking a key up after a filter, in a dictionary whose keys are
    distinct. *)
Lemma dict_get_filter {A : Type} (p : string * A -> bool) (k : string) (d : dict A) :
  NoDup (dict_keys d) ->
  dict_get k (filter p d)
  = match dict_get k d with
    | Some v => if p (k, v) then Some v else None
    | None => None
    end.
Proof.
  induction d as [|[k' v'] rest IH]; simpl; [reflexivity|].
  intros Hnd. inversion Hnd as [|? ? Hfresh Hrest]; subst.
  destruct (String.eqb_spec k' k) as [->|Hne].
  - destruct (p (k, v')) eqn:Hp; simpl.
    + now rewrite String.eqb_refl.
    + rewrite (IH Hrest).
      destruct (dict_get k rest) eqn:Hget; [|reflexivity].
      exfalso. apply Hfresh.
      clear -Hget. induction rest as [|[k0 v0] rest IH]; simpl in *; [discriminate|].
      destruct (String.eqb_spec k0 k); auto.
  - destruct (p (k', v')); simpl; [|auto].
    destruct (String.eqb_spec k' k); [congruence | auto].
Qed.

Lemma dict_keys_filter_NoDup {A : Type} (p : string * A -> bool) (d : dict A) :
  NoDup (dict_keys d) -> NoDup (dict_keys (filter p d)).
Proof.
  induction d as [|[k v] rest IH]; simpl; [auto|].
  intros Hnd. inversion Hnd as [|? ? Hfresh Hrest]; subst.
  destruct (p (k, v)); simpl; [|auto].
  constructor; [|auto].
  intros Hin. apply Hfresh. unfold dict_keys in *.
  apply in_map_iff in Hin. destruct Hin as (kv & Hk & Hkv).
  apply filter_In in Hkv. apply in_map_iff. exists kv. tauto.
Qed.

(** ** The storage engine *)

Section StorageFacts.

Context {V : Type}.

Implicit Types (e : LSMEngine V) (key path : string) (sst : SSTable).

(** *** sstable.py *)

(** Building an [SSTable] object always stops at the chained assignment. *)
Lemma SSTable_init_raises path e :
  SSTable_init path e = (Raised (TypeError NoItemAssignment), e).
Proof. reflexivity. Qed.

(** So does [SSTable.write], before it opens a file. *)
Lemma SSTable_write_raises path (items : list (string * option V)) e :
  SSTable_write path items e = (Raised (TypeError NoItemAssignment), e).
Proof. reflexivity. Qed.

(** Past the chained assignment, the first record written divides by
    [INDEX_SAMPLE], which is zero. *)
Lemma write_records_raises path i k (v : option V) rest ix e lines :
  dict_get path (data_files e) = Some lines ->
  fst (write_records path i ((k, v) :: rest) ix e) = Raised ZeroDivisionError.
Proof.
  intros Hfile. simpl. unfold tell, reads. rewrite Hfile. reflexivity.
Qed.

Lemma SSTable_get_with_candidate sst key e c cs :
  filter (fun k => String.leb k key) (dict_keys (index sst)) = c :: cs ->
  SSTable_get sst key e = Returned None.
Proof.
  intros Hc. unfold SSTable_get. rewrite Hc.
  destruct (dict_get_of_key (max_str c cs) (index sst)) as [off Hoff].
  - pose proof (max_str_is_candidate c cs) as Hin.
    rewrite <- Hc in Hin. apply filter_In in Hin. tauto.
  - now rewrite Hoff.
Qed.

(** Lines under smaller keys, and blank ones, are scanned past. *)
Lemma get_scan_before key (before rest : list (sst_line V)) :
  Forall (before_key key) before ->
  get_scan key (scan_lines (before ++ rest)%list) = get_scan key (scan_lines rest).
Proof.
  induction 1 as [|l before Hl _ IH]; simpl; [reflexivity|].
  destruct l as [| |k v]; simpl in *; [exact IH | contradiction |].
  now rewrite (ltb_not_eqb _ _ Hl), (ltb_asym _ _ Hl).
Qed.

Lemma SSTable_get_without_candidate sst key e lines :
  filter (fun k => String.leb k key) (dict_keys (index sst)) = [] ->
  dict_get (data_path sst) (data_files e) = Some lines ->
  SSTable_get sst key e = get_scan key (scan_lines lines).
Proof.
  intros Hnone Hfile. unfold SSTable_get, _scan_from. now rewrite Hnone, Hfile.
Qed.

(** *** lsm.py: flush, put, delete *)

Lemma flush_nonempty_raises e :
  memtable e <> [] ->
  LSMEngine_flush e = (Raised (TypeError NoItemAssignment), e).
Proof.
  intros H. unfold LSMEngine_flush. simpl.
  destruct (memtable e); [congruence | reflexivity].
Qed.

Lemma put_below_threshold key (value : V) e :
  (len (dict_set key (Some value) (memtable e)) < memtable_limit e)%Z ->
  LSMEngine_put key value e = (Returned tt, after_put key value e).
Proof.
  intros Hlt. unfold LSMEngine_put, flush_if_full. simpl.
  destruct (Z.geb_spec (len (dict_set key (Some value) (memtable e))) (memtable_limit e));
    [lia | reflexivity].
Qed.

Lemma put_at_threshold key (value : V) e :
  (len (dict_set key (Some value) (memtable e)) >= memtable_limit e)%Z ->
  LSMEngine_put key value e = (Raised (TypeError NoItemAssignment), after_put key value e).
Proof.
  intros Hge. unfold LSMEngine_put, flush_if_full. simpl.
  destruct (Z.geb_spec (len (dict_set key (Some value) (memtable e))) (memtable_limit e));
    [|lia].
  apply flush_nonempty_raises. simpl. apply dict_set_not_empty.
Qed.

Lemma delete_stops_at_append_del key e :
  LSMEngine_delete key e = (Raised (AttributeError "append_del"), e).
Proof.
  unfold LSMEngine_delete, getattr. simpl. reflexivity.
Qed.

(** *** lsm.py: get *)

Lemma get_memtable_hit key e (v : option V) :
  dict_get key (memtable e) = Some v -> LSMEngine_get key e = Returned v.
Proof. intros H. unfold LSMEngine_get. now rewrite H. Qed.

Lemma get_memtable_miss key e :
  dict_get key (memtable e) = None ->
  LSMEngine_get key e = get_sstables (rev (sstables e)) key e.
Proof. intros H. unfold LSMEngine_get. now rewrite H. Qed.

Lemma get_sstables_hit sst rest key e (v : V) :
  SSTable_get sst key e = Returned (Some v) ->
  get_sstables (sst :: rest) key e = Returned (Some v).
Proof. intros H. simpl. now rewrite H. Qed.

(** A table that answers [None] is passed over, whether it holds a
    tombstone for the key or no record of it: [_exists_in_sstable] asks the
    same question again and gets the same [None]. *)
Lemma get_sstables_passes_None sst rest key e :
  SSTable_get sst key e = Returned None ->
  get_sstables (sst :: rest) key e = get_sstables rest key e.
Proof.
  intros H. simpl. rewrite H. simpl.
  unfold _exists_in_sstable. rewrite H. reflexivity.
Qed.

Lemma get_sstables_raises sst rest key e ex :
  SSTable_get sst key e = Raised ex ->
  get_sstables (sst :: rest) key e = Raised ex.
Proof. intros H. simpl. now rewrite H. Qed.

(** *** lsm.py: compact *)

Lemma compact_empty_is_noop e :
  sstables e = [] -> LSMEngine_compact e = (Returned tt, e).
Proof. intros H. unfold LSMEngine_compact. simpl. now rewrite H. Qed.

Lemma compact_nonempty e :
  sstables e <> [] ->
  LSMEngine_compact e =
    (match merge_sstables (rev (sstables e)) [] e with
     | Returned _ => Raised (TypeError NoItemAssignment)
     | Raised ex => Raised ex
     end, e).
Proof.
  intros H. unfold LSMEngine_compact. simpl.
  destruct (sstables e) as [|sst rest] eqn:E; [congruence|].
  unfold reads.
  destruct (merge_sstables (rev (sst :: rest)) [] e); reflexivity.
Qed.

(** *** wal.py: replay *)

Lemma replay_lines_parseable (lines : list (wal_line V)) mem :
  Forall parseable lines ->
  replay_lines lines mem = Returned (fold_left apply_record lines mem).
Proof.
  intros Hok. revert mem.
  induction Hok as [|l rest Hl _ IH]; intros mem; simpl; [reflexivity|].
  destruct l as [| |op key value]; simpl.
  - apply IH.
  - now elim Hl.
  - destruct (String.eqb op "put"); [apply IH|].
    destruct (String.eqb op "del"); apply IH.
Qed.

Lemma replay_lines_torn (earlier later : list (wal_line V)) mem :
  Forall parseable earlier ->
  replay_lines (earlier ++ WCorrupt :: later) mem = Raised JSONDecodeError.
Proof.
  intros Hok. revert mem.
  induction Hok as [|l rest Hl _ IH]; intros mem; simpl; [reflexivity|].
  destruct l as [| |op key value]; simpl.
  - apply IH.
  - now elim Hl.
  - destruct (String.eqb op "put"); [apply IH|].
    destruct (String.eqb op "del"); apply IH.
Qed.

(** *** lsm.py: the merge of compact *)

Lemma merge_lines_get key (lines : list (sst_line V)) merged merged' :
  merge_lines lines merged = Returned merged' ->
  dict_get key merged'
  = match dict_get key merged with
    | Some v => Some v
    | None => record_of key lines
    end.
Proof.
  revert merged. induction lines as [|l rest IH]; intros merged; simpl.
  - intros [= <-]. now destruct (dict_get key merged).
  - destruct l as [| |k v]; [apply IH | discriminate |].
    intros H. rewrite (IH _ H). unfold dict_has.
    destruct (String.eqb_spec k key) as [->|Hne].
    + destruct (dict_get key merged) as [x|] eqn:Hget.
      * now rewrite Hget.
      * now rewrite dict_get_set_same.
    + destruct (dict_get k merged); [reflexivity|].
      rewrite dict_get_set_other by congruence. reflexivity.
Qed.

Lemma merge_lines_NoDup (lines : list (sst_line V)) merged merged' :
  NoDup (dict_keys merged) ->
  merge_lines lines merged = Returned merged' ->
  NoDup (dict_keys merged').
Proof.
  revert merged. induction lines as [|l rest IH]; intros merged Hnd; simpl.
  - now intros [= <-].
  - destruct l as [| |k v]; [now apply IH | discriminate |].
    apply IH. unfold dict_has.
    destruct (dict_get k merged) eqn:Hget; [exact Hnd|].
    rewrite dict_keys_set_absent by exact Hget.
    apply NoDup_snoc; [exact Hnd | now apply dict_get_None_not_key].
Qed.

Lemma merge_sstables_get key ssts merged merged' e :
  merge_sstables ssts merged e = Returned merged' ->
  dict_get key merged'
  = match dict_get key merged with
    | Some v => Some v
    | None => resolve key (map (file_of e) ssts)
    end.
Proof.
  revert merged. induction ssts as [|sst rest IH]; intros merged; simpl.
  - intros [= <-]. now destruct (dict_get key merged).
  - unfold file_of at 1.
    destruct (dict_get (data_path sst) (data_files e)) as [lines|]; [|discriminate].
    intros H. head_returns H Elines.
    rewrite (IH _ H), (merge_lines_get key _ _ _ Elines).
    destruct (dict_get key merged); [reflexivity|].
    now destruct (record_of key lines).
Qed.

Lemma merge_sstables_NoDup ssts merged merged' e :
  NoDup (dict_keys merged) ->
  merge_sstables ssts merged e = Returned merged' ->
  NoDup (dict_keys merged').
Proof.
  revert merged. induction ssts as [|sst rest IH]; intros merged Hnd; simpl.
  - now intros [= <-].
  - destruct (dict_get (data_path sst) (data_files e)) as [lines|]; [|discriminate].
    intros H. head_returns H Elines.
    eapply IH; [|exact H]. eapply merge_lines_NoDup; eauto.
Qed.

(** *** Invariants of the engine's states *)

Lemma replay_lines_app (a b : list (wal_line V)) mem :
  replay_lines (a ++ b)%list mem = (m <- replay_lines a mem ;; replay_lines b m).
Proof.
  revert mem. induction a as [|l rest IH]; intros mem; simpl; [reflexivity|].
  destruct l as [| |op key value]; auto.
  destruct (String.eqb op "put"); auto.
  destruct (String.eqb op "del"); auto.
Qed.

(** Whether the flush is triggered or not, [put] leaves the engine with
    the record logged and the entry set, and nothing else changed. *)
Lemma put_state key (value : V) e :
  snd (LSMEngine_put key value e) = after_put key value e.
Proof.
  destruct (Z.lt_ge_cases (len (dict_set key (Some value) (memtable e)))
                          (memtable_limit e)) as [Hlt|Hge].
  - now rewrite put_below_threshold.
  - now rewrite put_at_threshold by lia.
Qed.

(** After a newline the text written is a line of its own. *)
Lemma written_Newline (lines : list (wal_line V)) (rec : wal_line V) :
  written lines Newline rec = (lines ++ [rec])%list.
Proof. now destruct lines. Qed.

Lemma serve_keeps_log_and_memtable_in_step e (r : request V) :
  wal_end e = Newline /\ WAL_replay e = Returned (memtable e) ->
  wal_end (serve e r) = Newline
  /\ WAL_replay (serve e r) = Returned (memtable (serve e r)).
Proof.
  unfold WAL_replay. intros [Hend Hinv]. destruct r as [key value|key]; simpl.
  - rewrite put_state. simpl. split; [reflexivity|].
    rewrite Hend, written_Newline, replay_lines_app, Hinv. reflexivity.
  - auto.
Qed.

Lemma serve_adds_no_table e (r : request V) :
  sstables (serve e r) = sstables e /\ wal_archive (serve e r) = wal_archive e.
Proof.
  destruct r as [key value|key]; simpl; [rewrite put_state|]; auto.
Qed.

(** *** The claims on the storage engine *)

(** C2 (the code fails the claim).  For every key, [LSMEngine.delete]
    raises [AttributeError]: the [WAL] class has no [append_del].  No del
    record reaches the log and no tombstone reaches the memtable; the
    engine is left as it was. *)
Theorem delete_raises_AttributeError key e :
  fst (LSMEngine_delete key e) = Raised (AttributeError "append_del")
  /\ wal_log (snd (LSMEngine_delete key e)) = wal_log e
  /\ memtable (snd (LSMEngine_delete key e)) = memtable e
  /\ snd (LSMEngine_delete key e) = e.
Proof.
  rewrite delete_stops_at_append_del. simpl. auto.
Qed.

(** C7 (the code fails the claim).  A [put] that brings the memtable to
    its threshold triggers the flush, and the flush raises [TypeError] in
    [SSTable.write]: the memtable keeps all its entries, no table is added
    to the list, and the log is neither retired nor emptied: it is the log
    of before with the record written at its end. *)
Theorem put_reaching_threshold_raises key (value : V) e :
  (len (dict_set key (Some value) (memtable e)) >= memtable_limit e)%Z ->
  fst (LSMEngine_put key value e) = Raised (TypeError NoItemAssignment)
  /\ memtable (snd (LSMEngine_put key value e)) = dict_set key (Some value) (memtable e)
  /\ memtable (snd (LSMEngine_put key value e)) <> []
  /\ sstables (snd (LSMEngine_put key value e)) = sstables e
  /\ wal_archive (snd (LSMEngine_put key value e)) = wal_archive e
  /\ wal_log (snd (LSMEngine_put key value e))
     = written (wal_log e) (wal_end e) (WRec "put" key (Some value)).
Proof.
  intros Hge. rewrite (put_at_threshold key value e Hge). simpl.
  repeat split. apply dict_set_not_empty.
Qed.

(** C4, as amended.  A log whose last line is unparseable, after lines
    that all parse, makes [WAL.replay] raise [JSONDecodeError], and so
    does an unparseable line with more lines after it; the mapping folded
    from the records is returned only for a log in which every line
    parses. *)
Theorem replay_torn_tail_raises e (earlier : list (wal_line V)) :
  Forall parseable earlier ->
  (wal_log e = (earlier ++ [WCorrupt])%list -> WAL_replay e = Raised JSONDecodeError)
  /\ (forall later, wal_log e = (earlier ++ WCorrupt :: later)%list ->
      WAL_replay e = Raised JSONDecodeError)
  /\ (wal_log e = earlier -> WAL_replay e = Returned (committed earlier)).
Proof.
  intros Hok. unfold WAL_replay, committed. split; [|split].
  - intros ->. now apply replay_lines_torn.
  - intros later ->. now apply replay_lines_torn.
  - intros ->. now apply replay_lines_parseable.
Qed.

(** *** On tables, which no run builds *)

(** A slip that stays latent, since no run builds a table to call the
    method on: when the index holds a sampled key that is at most [key],
    [SSTable.get] answers [None] without reading the data file, also when
    a record for [key] lies at or after the offset sampled for it. *)
Lemma SSTable_get_misses_indexed_record sst key e lines sampled offset (v : option V) :
  dict_get (data_path sst) (data_files e) = Some lines ->
  dict_get sampled (index sst) = Some offset ->
  String.leb sampled key = true ->
  record_of key (skipn offset lines) = Some v ->
  SSTable_get sst key e = Returned None.
Proof.
  intros _ Hsampled Hle _.
  destruct (filter (fun k => String.leb k key) (dict_keys (index sst))) as [|c cs] eqn:Hc.
  - assert (Hin : In sampled (filter (fun k => String.leb k key) (dict_keys (index sst)))).
    { apply filter_In. split; [|exact Hle].
      clear -Hsampled. induction (index sst) as [|[k' o'] rest IH]; simpl in *; [discriminate|].
      destruct (String.eqb_spec k' sampled); auto. }
    rewrite Hc in Hin. destruct Hin.
  - eapply SSTable_get_with_candidate; eauto.
Qed.

(** Latent likewise: on a non-empty table list, which no run builds,
    [LSMEngine.compact] would raise and change nothing: the old tables
    and their files stay, no compacted table is written.  When every file
    reads well the exception is the [TypeError] of [SSTable.write]. *)
Lemma compact_raises_and_changes_nothing e :
  sstables e <> [] ->
  (exists ex, LSMEngine_compact e = (Raised ex, e))
  /\ (forall merged, merge_sstables (rev (sstables e)) [] e = Returned merged ->
      LSMEngine_compact e = (Raised (TypeError NoItemAssignment), e)).
Proof.
  intros Hne. rewrite (compact_nonempty e Hne). split.
  - destruct (merge_sstables (rev (sstables e)) [] e); eauto.
  - intros merged ->. reflexivity.
Qed.

(** *** Beyond the claims: what holds of every engine *)


(** X2.  Durability: after any sequence of [put] and [delete] calls on an
    engine opened on a new directory, replaying the log rebuilds the
    memtable exactly. *)
Theorem replay_rebuilds_memtable now limit (rs : list (request V)) :
  WAL_replay (serve_all (fresh_engine now limit) rs)
  = Returned (memtable (serve_all (fresh_engine now limit) rs)).
Proof.
  unfold serve_all.
  assert (Hstart : wal_end (fresh_engine (V:=V) now limit) = Newline
                   /\ WAL_replay (fresh_engine (V:=V) now limit)
                      = Returned (memtable (fresh_engine (V:=V) now limit)))
    by (split; reflexivity).
  revert Hstart. generalize (fresh_engine (V:=V) now limit).
  induction rs as [|r rest IH]; intros e Hinv; simpl; [exact (proj2 Hinv)|].
  apply IH. now apply serve_keeps_log_and_memtable_in_step.
Qed.

(** X3.  No sequence of [put] and [delete] calls on an engine opened on a
    new directory ever adds a table to the list or retires the log: every
    flush they trigger raises. *)
Theorem writes_never_flush now limit (rs : list (request V)) :
  sstables (serve_all (fresh_engine now limit) rs) = []
  /\ wal_archive (serve_all (fresh_engine now limit) rs) = [].
Proof.
  unfold serve_all.
  assert (Hstart : sstables (fresh_engine (V:=V) now limit) = []
                   /\ wal_archive (fresh_engine (V:=V) now limit) = [])
    by (split; reflexivity).
  revert Hstart. generalize (fresh_engine (V:=V) now limit).
  induction rs as [|r rest IH]; intros e Hinv; simpl; [exact Hinv|].
  apply IH. destruct (serve_adds_no_table e r) as [-> ->]. exact Hinv.
Qed.

(** X7.  A flush on an empty memtable is a no-op: it returns and leaves
    the engine as it was. *)
Theorem flush_empty_is_noop e :
  memtable e = [] -> LSMEngine_flush e = (Returned tt, e).
Proof. intros H. unfold LSMEngine_flush. simpl. now rewrite H. Qed.

(** X4.  What [compact] hands to [SSTable.write]: when every data file
    reads well, the merged mapping without its tombstones gives each key
    the value newest-wins resolution gives it, holds no key twice, no
    tombstone, and no key that resolves to a tombstone. *)
Theorem merge_resolves_newest_wins e merged key :
  merge_sstables (rev (sstables e)) [] e = Returned merged ->
  dict_get key (drop_tombstones merged)
  = match resolve key (table_files e) with
    | Some (Some v) => Some (Some v)
    | _ => None
    end
  /\ NoDup (dict_keys (drop_tombstones merged))
  /\ Forall (fun kv => snd kv <> None) (drop_tombstones merged).
Proof.
  intros Hmerge.
  assert (Hnd : NoDup (dict_keys merged)).
  { eapply merge_sstables_NoDup; [|exact Hmerge]. constructor. }
  unfold drop_tombstones. split; [|split].
  - rewrite (dict_get_filter _ key merged Hnd), (merge_sstables_get key _ _ _ _ Hmerge).
    simpl. unfold table_files.
    now destruct (resolve key (map (file_of e) (rev (sstables e)))) as [[v|]|].
  - now apply dict_keys_filter_NoDup.
  - apply Forall_forall. intros [k v] Hin. apply filter_In in Hin.
    destruct Hin as [_ Hlive]. simpl in *. now destruct v.
Qed.

(** X5.  Without a sampled key at or below [key], [SSTable.get] scans the
    data file from its start past blank lines and smaller keys: it returns
    the value of the record under [key], and [None] at the first greater
    key or at the end of the file. *)
Theorem SSTable_get_unindexed_scans sst key e before :
  filter (fun k => String.leb k key) (dict_keys (index sst)) = [] ->
  Forall (before_key key) before ->
  (forall v after,
      dict_get (data_path sst) (data_files e) = Some (before ++ SRec key v :: after)%list ->
      SSTable_get sst key e = Returned v)
  /\ (forall k v after,
      String.ltb key k = true ->
      dict_get (data_path sst) (data_files e) = Some (before ++ SRec k v :: after)%list ->
      SSTable_get sst key e = Returned None)
  /\ (dict_get (data_path sst) (data_files e) = Some before ->
      SSTable_get sst key e = Returned None).
Proof.
  intros Hnone Hbefore. split; [|split].
  - intros v after Hfile.
    rewrite (SSTable_get_without_candidate _ _ _ _ Hnone Hfile), get_scan_before by assumption.
    simpl. now rewrite String.eqb_refl.
  - intros k v after Hgt Hfile.
    rewrite (SSTable_get_without_candidate _ _ _ _ Hnone Hfile), get_scan_before by assumption.
    simpl. rewrite Hgt.
    rewrite String.eqb_sym, (ltb_not_eqb _ _ Hgt). reflexivity.
  - intros Hfile.
    rewrite (SSTable_get_without_candidate _ _ _ _ Hnone Hfile).
    rewrite <- (app_nil_r before), get_scan_before by assumption. reflexivity.
Qed.

End StorageFacts.

(** *** The same at concrete engines *)

Lemma put_reaching_threshold_raises_witness :
  (len (dict_set "a" (Some "1") (memtable tiny_engine)) >= memtable_limit tiny_engine)%Z
  /\ fst (LSMEngine_put "a" "1" tiny_engine) = Raised (TypeError NoItemAssignment)
  /\ memtable (snd (LSMEngine_put "a" "1" tiny_engine)) = [("a", Some "1")].
Proof.
  assert (H : (len (dict_set "a" (Some "1") (memtable tiny_engine))
               >= memtable_limit tiny_engine)%Z)
    by (vm_compute; discriminate).
  split; [exact H|].
  destruct (put_reaching_threshold_raises "a" "1" tiny_engine H) as (Hr & Hm & _).
  split; [exact Hr | exact Hm].
Defined.

Lemma flush_empty_is_noop_witness :
  memtable layered_engine = []
  /\ LSMEngine_flush layered_engine = (Returned tt, layered_engine).
Proof.
  split; [reflexivity|]. exact (flush_empty_is_noop layered_engine eq_refl).
Defined.

Lemma merge_resolves_newest_wins_witness :
  merge_sstables (rev (sstables layered_engine)) [] layered_engine
  = Returned [("a", Some "2"); ("k", None)]
  /\ dict_get "a" (drop_tombstones [("a", Some "2"); ("k", @None string)]) = Some (Some "2")
  /\ dict_get "k" (drop_tombstones [("a", Some "2"); ("k", @None string)]) = None.
Proof.
  split; [reflexivity|]. split.
  - exact (proj1 (merge_resolves_newest_wins layered_engine _ "a" eq_refl)).
  - exact (proj1 (merge_resolves_newest_wins layered_engine _ "k" eq_refl)).
Defined.

Lemma SSTable_get_unindexed_scans_witness :
  Forall (before_key "k") [SRec "a" (Some "1")]
  /\ SSTable_get sst_older "k" layered_engine = Returned (Some "v").
Proof.
  assert (H : Forall (before_key "k") [SRec "a" (Some "1")])
    by (repeat constructor).
  split; [exact H|].
  exact (proj1 (SSTable_get_unindexed_scans sst_older "k" layered_engine
                  [SRec "a" (Some "1")] eq_refl H) (Some "v") [] eq_refl).
Defined.

(** C4, the claim as stated fails: on a log of one put followed by a torn
    line, [WAL.replay] raises and returns no mapping, where the claim has
    it return the mapping of the put. *)
Lemma replay_torn_tail_counterexample :
  wal_log torn_engine = [WRec "put" "a" (Some "1"); WCorrupt]
  /\ WAL_replay torn_engine = Raised JSONDecodeError
  /\ WAL_replay torn_engine <> Returned (committed [WRec "put" "a" (Some "1")]).
Proof. repeat split. discriminate. Qed.

Lemma replay_torn_tail_raises_witness :
  Forall parseable [WRec "put" "a" (Some "1")]
  /\ WAL_replay torn_engine = Raised JSONDecodeError.
Proof.
  assert (H : Forall parseable [WRec (V:=string) "put" "a" (Some "1")])
    by (repeat constructor; discriminate).
  split; [exact H|].
  apply (proj1 (replay_torn_tail_raises torn_engine [WRec "put" "a" (Some "1")] H)).
  reflexivity.
Defined.

(** ** The document layer *)

(** *** schema.py *)


(** The unique check with no documents to compare against asks the
    registry alone. *)
Lemma check_unique_without_existing s field r val existing :
  check_unique s field r val existing = Returned tt ->
  check_unique s field r val [] = Returned tt.
Proof.
  unfold check_unique. destruct (unique_truthy r); [|reflexivity].
  intros H. head_returns H E. exact H.
Qed.

Lemma check_ref_without_collections field r val :
  check_ref field r val [] = Returned tt.
Proof. unfold check_ref. now destruct (r_ref r). Qed.

Lemma validate_field_without_existing s d existing colls field r :
  validate_field s d existing colls field r = Returned tt ->
  validate_field s d [] [] field r = Returned tt.
Proof.
  unfold validate_field.
  destruct (doc_get field d) eqn:Hval; [reflexivity| | |];
    intros H;
    head_returns H Etype; head_returns H Eunique; head_returns H Elength;
    head_returns H Enumeric; head_returns H Eenum;
    rewrite Etype, (check_unique_without_existing _ _ _ _ _ Eunique),
            Elength, Enumeric, Eenum;
    apply check_ref_without_collections.
Qed.

(** What passes [validate] with existing documents and collections
    passes the second [validate] of [_to_stored], which has neither. *)
Lemma validate_fields_without_existing s d existing colls (fs : dict rules) :
  validate_fields s d existing colls fs = Returned tt ->
  validate_fields s d [] [] fs = Returned tt.
Proof.
  induction fs as [|[field r] rest IH]; simpl; [reflexivity|].
  intros H. head_returns H Efield.
  rewrite (validate_field_without_existing _ _ _ _ _ _ Efield). simpl. auto.
Qed.

Lemma to_stored_after_validate c d existing colls :
  validate_if_schema c d existing colls = Returned tt ->
  _to_stored c d = json_dumps d.
Proof.
  unfold validate_if_schema, _to_stored, Schema_validate.
  destruct (schema c) as [s|]; [|reflexivity].
  intros H. head_returns H Evalidate. head_returns Evalidate Efields.
  rewrite (validate_fields_without_existing _ _ _ _ _ Efields). reflexivity.
Qed.

(** What [json.dumps] returns is the text of the document, and [json.loads]
    reads it back. *)
Lemma json_dumps_Returned d stored :
  json_dumps d = Returned stored -> stored = Json d /\ within_digit_limit d = true.
Proof.
  unfold json_dumps. destruct (within_digit_limit d); [|discriminate].
  intros [= <-]. auto.
Qed.

Lemma json_loads_dumped d :
  within_digit_limit d = true -> json_loads (Json d) = Returned d.
Proof. simpl. now intros ->. Qed.



(** *** collection.py *)

(** [insert], step by step: what each step that can raise decides. *)
Lemma insert_steps uuid d doc_id colls c :
  Collection_insert uuid d doc_id colls c
  = match gather_existing c with
    | Raised ex => (Raised ex, c)
    | Returned existing =>
        match validate_if_schema c d existing colls with
        | Raised ex => (Raised ex, c)
        | Returned _ =>
            match _to_stored c d with
            | Raised ex => (Raised ex, c)
            | Returned stored =>
                let doc_id := match doc_id with Some i => i | None => uuid end in
                match LSMEngine_put (_k c doc_id) stored (engine c) with
                | (Returned _, e') => (Returned doc_id, registered d (set_engine e' c))
                | (Raised ex, e') => (Raised ex, set_engine e' c)
                end
            end
        end
    end.
Proof.
  unfold Collection_insert, reads, on_engine, register_if_schema, modify. simpl.
  destruct (gather_existing c) as [existing|ex]; [|reflexivity].
  destruct (validate_if_schema c d existing colls) as [[]|ex]; [|reflexivity].
  destruct (_to_stored c d) as [stored|ex]; [|reflexivity].
  destruct (LSMEngine_put _ stored (engine c)) as [[[]|ex] e']; reflexivity.
Qed.

(** [update] stops before it merges anything. *)
Lemma update_steps doc_id updates colls c :
  Collection_update doc_id updates colls c
  = (match Collection_get c doc_id with
     | Raised ex => Raised ex
     | Returned None => Raised (KeyError doc_id)
     | Returned (Some _) => Raised (AttributeError "model_cls")
     end, c).
Proof.
  unfold Collection_update, reads. simpl.
  destruct (Collection_get c doc_id) as [[cur|]|ex]; reflexivity.
Qed.


(** [get] after a write that went through reads the written document
    back from the memtable. *)
Lemma get_after_put c doc_id d :
  within_digit_limit d = true ->
  Collection_get (set_engine (after_put (_k c doc_id) (Json d) (engine c)) c) doc_id
  = Returned (Some d).
Proof.
  intros Hd. unfold Collection_get, _k. simpl.
  rewrite (get_memtable_hit _ _ (Some (Json d))).
  - unfold _from_stored. now rewrite (json_loads_dumped d Hd).
  - simpl. apply dict_get_set_same.
Qed.

Lemma get_ignores_registry c doc_id d :
  Collection_get (registered d c) doc_id = Collection_get c doc_id.
Proof. unfold registered. now destruct (schema c). Qed.

(** *** collection.py: what the scan yields *)

Lemma startswith_split (k pfx : string) :
  startswith k pfx = true -> k = pfx ++ str_from (String.length pfx) k.
Proof.
  unfold startswith. revert k.
  induction pfx as [|a pfx IH]; intros k; simpl; [reflexivity|].
  destruct k as [|b k]; simpl; [discriminate|].
  destruct (ascii_dec a b) as [->|]; [|discriminate].
  intros H. now rewrite <- (IH k H).
Qed.

Lemma from_stored_Returned raw d :
  _from_stored raw = Returned d -> raw = Json d.
Proof.
  destruct raw as [d'|t]; simpl; [|discriminate].
  destruct (within_digit_limit d'); congruence.
Qed.

Lemma scan_memtable_yields pfx items seen next doc_id d :
  In (Yield (doc_id, d)) (scan_memtable pfx items seen next) ->
  In (pfx ++ doc_id, Some (Json d)) items
  \/ exists seen', In (Yield (doc_id, d)) (next seen').
Proof.
  revert seen. induction items as [|[k v] rest IH]; intros seen; simpl.
  - eauto.
  - destruct (startswith k pfx) eqn:Hpfx; simpl;
      [|intros H; destruct (IH _ H); auto].
    destruct v as [raw|]; simpl; [|intros H; destruct (IH _ H); auto].
    destruct (_from_stored raw) as [d'|ex] eqn:Hraw; simpl.
    + intros [[= <- <-]|H].
      * left. left. apply from_stored_Returned in Hraw.
        now rewrite <- (startswith_split k pfx Hpfx), Hraw.
      * destruct (IH _ H); auto.
    + intros [[=]|[]].
Qed.

Lemma scan_data_lines_yields pfx lines seen next doc_id d :
  In (Yield (doc_id, d)) (scan_data_lines pfx lines seen next) ->
  In (SRec (pfx ++ doc_id) (Some (Json d))) lines
  \/ exists seen', In (Yield (doc_id, d)) (next seen').
Proof.
  revert seen. induction lines as [|l rest IH]; intros seen; simpl.
  - eauto.
  - destruct l as [| |k v]; simpl.
    + intros H. destruct (IH _ H); auto.
    + intros [[=]|[]].
    + destruct (startswith k pfx) eqn:Hpfx; simpl;
        [|intros H; destruct (IH _ H); auto].
      destruct (set_mem (str_from (String.length pfx) k) seen);
        [intros H; destruct (IH _ H); auto|].
      destruct v as [raw|]; [|intros H; destruct (IH _ H); auto].
      destruct (_from_stored raw) as [d'|ex] eqn:Hraw; simpl.
      * intros [[= <- <-]|H].
        -- left. left. apply from_stored_Returned in Hraw.
           now rewrite <- (startswith_split k pfx Hpfx), Hraw.
        -- destruct (IH _ H); auto.
      * intros [[=]|[]].
Qed.

Lemma scan_tables_yields pfx ssts e seen doc_id d :
  In (Yield (doc_id, d)) (scan_tables pfx ssts e seen) ->
  exists lines, In lines (map (file_of e) ssts)
                /\ In (SRec (pfx ++ doc_id) (Some (Json d))) lines.
Proof.
  revert seen. induction ssts as [|sst rest IH]; intros seen; simpl; [tauto|].
  unfold file_of at 1.
  destruct (dict_get (data_path sst) (data_files e)) as [lines|]; simpl.
  - intros H. apply scan_data_lines_yields in H.
    destruct H as [H|[seen' H]]; [eauto|].
    destruct (IH _ H) as (lines' & Hin & Hrec). eauto.
  - intros [[=]|[]].
Qed.

Lemma collect_elements g acc found w :
  collect g acc = Returned found ->
  In w found ->
  In w acc \/ In (Yield (_id w, _doc w)) g.
Proof.
  revert acc. induction g as [|[[doc_id d]|ex] rest IH]; intros acc; simpl.
  - intros [= <-]. auto.
  - intros Hc Hw. destruct (IH _ Hc Hw) as [Hacc|Hrest]; [|auto].
    apply in_app_or in Hacc. destruct Hacc as [Hacc|[<-|[]]]; auto.
  - discriminate.
Qed.

(** X6.  Key-prefix isolation: every document [find_all] returns is kept,
    with a present value, under the key made of the collection's prefix
    and the identifier it is returned with, in the memtable or in the data
    file of one of the engine's tables. *)
Theorem find_all_stays_in_prefix c found w :
  Collection_find_all c = Returned found ->
  In w found ->
  stored_under c (_id w) (_doc w).
Proof.
  unfold Collection_find_all, _scan_docs, stored_under. intros Hfound Hw.
  destruct (collect_elements _ _ _ _ Hfound Hw) as [[]|Hyield].
  apply scan_memtable_yields in Hyield. destruct Hyield as [Hmem|[seen Htab]]; [auto|].
  right. now apply scan_tables_yields in Htab.
Qed.

(** *** The claims on the document layer *)

(** C9 (the code fails the claim).  [update] on an identifier that [get]
    finds raises [AttributeError] at [self.model_cls], before it overlays,
    validates or writes anything; on an identifier [get] does not find it
    raises [KeyError].  The collection is unchanged either way. *)
Theorem update_raises_before_merging doc_id updates colls c found :
  Collection_get c doc_id = Returned found ->
  Collection_update doc_id updates colls c
  = (Raised (match found with
             | Some _ => AttributeError "model_cls"
             | None => KeyError doc_id
             end), c).
Proof.
  intros Hget. rewrite update_steps, Hget. now destruct found.
Qed.


(** C10, as amended.  [insert] does not look the identifier up: given an
    identifier that names a live document, a document that passes the
    schema's validation against the gathered documents and that
    [json.dumps] turns into text, and a memtable that stays under its
    threshold, [insert] returns the identifier and the new document
    replaces the old one under the same key. *)
Theorem insert_existing_id_overwrites uuid d doc_id colls c old existing stored :
  Collection_get c doc_id = Returned (Some old) ->
  gather_existing c = Returned existing ->
  validate_if_schema c d existing colls = Returned tt ->
  json_dumps d = Returned stored ->
  (len (dict_set (_k c doc_id) (Some stored) (memtable (engine c)))
   < memtable_limit (engine c))%Z ->
  exists c',
    Collection_insert uuid d (Some doc_id) colls c = (Returned doc_id, c')
    /\ Collection_get c' doc_id = Returned (Some d)
    /\ engine c' = after_put (_k c doc_id) stored (engine c).
Proof.
  intros _ Hgather Hvalid Hdumps Hroom.
  rewrite insert_steps, Hgather, Hvalid, (to_stored_after_validate _ _ _ _ Hvalid), Hdumps.
  cbv zeta. rewrite (put_below_threshold _ _ _ Hroom).
  apply json_dumps_Returned in Hdumps. destruct Hdumps as [-> Hd].
  eexists. split; [reflexivity|]. split.
  - rewrite get_ignores_registry. now apply get_after_put.
  - unfold registered. simpl. now destruct (schema c).
Qed.

(** *** The same at concrete collections *)

Lemma update_raises_before_merging_witness :
  Collection_get (users_with None bob) "1" = Returned (Some bob)
  /\ Collection_update "1" [("age", VInt 31)] [] (users_with None bob)
     = (Raised (AttributeError "model_cls"), users_with None bob).
Proof.
  assert (H : Collection_get (users_with None bob) "1" = Returned (Some bob))
    by reflexivity.
  split; [exact H|].
  exact (update_raises_before_merging "1" [("age", VInt 31)] [] _ _ H).
Defined.



(** C10, the claim as stated fails.  Under the schema of [main.py], with
    Bob stored under ["1"], inserting Bob again under ["1"] raises the
    duplicate error for [name]: the document being replaced counts among
    the existing ones. *)
Lemma insert_existing_id_counterexample :
  Collection_get (users_with (Some user_schema) bob) "1" = Returned (Some bob)
  /\ Collection_insert "uuid" bob (Some "1") [] (users_with (Some user_schema) bob)
     = (Raised (ValueError (Duplicate "name" (VStr "Bob"))),
        users_with (Some user_schema) bob).
Proof. split; reflexivity. Qed.

Lemma insert_existing_id_overwrites_witness :
  Collection_get (users_with None bob) "1" = Returned (Some bob)
  /\ fst (Collection_insert "uuid" bob_older (Some "1") [] (users_with None bob))
     = Returned "1"
  /\ Collection_get (snd (Collection_insert "uuid" bob_older (Some "1") []
                            (users_with None bob))) "1"
     = Returned (Some bob_older).
Proof.
  split; [reflexivity|].
  assert (Hroom : (len (dict_set (_k (users_with None bob) "1") (Some (Json bob_older))
                                 (memtable (engine (users_with None bob))))
                   < memtable_limit (engine (users_with None bob)))%Z)
    by reflexivity.
  destruct (insert_existing_id_overwrites "uuid" bob_older "1" []
              (users_with None bob) bob [] (Json bob_older)
              eq_refl eq_refl eq_refl eq_refl Hroom)
    as (c' & Hinsert & Hget & _).
  rewrite Hinsert. split; [reflexivity | exact Hget].
Defined.

Lemma find_all_stays_in_prefix_witness :
  Collection_find_all tombstoned_users = Returned [mkDocument "1" bob]
  /\ stored_under tombstoned_users "1" bob.
Proof.
  split; [reflexivity|].
  apply (find_all_stays_in_prefix tombstoned_users [mkDocument "1" bob]
           (mkDocument "1" bob)); [reflexivity | now left].
Defined.

(** * More facts *)

(** ** The engine from opening to closing *)

Lemma insert_by_key_length {A : Type} (kv : string * A) (l : list (string * A)) :
  length (insert_by_key kv l) = S (length l).
Proof.
  induction l as [|x rest IH]; simpl; [reflexivity|].
  destruct (String.ltb (fst kv) (fst x)); simpl; auto.
Qed.

Lemma sorted_by_key_length {A : Type} (l : list (string * A)) :
  length (sorted_by_key l) = length l.
Proof.
  unfold sorted_by_key.
  assert (H : forall acc, length (fold_left (fun acc kv => insert_by_key kv acc) l acc)
                          = (length l + length acc)%nat).
  { induction l as [|kv rest IH]; intros acc; simpl; [reflexivity|].
    rewrite IH, insert_by_key_length. lia. }
  rewrite H. simpl. lia.
Qed.

Section LifecycleFacts.

Context {V : Type}.

Implicit Types (e : LSMEngine V) (key : string).

Lemma fresh_engine_only_logged now limit :
  only_logged (fresh_engine (V:=V) now limit).
Proof. repeat split. Qed.

Lemma serve_only_logged e (r : request V) :
  only_logged e -> only_logged (serve e r).
Proof.
  intros (Hlog & Hst & Hdf & Hif & Har & Hend).
  destruct r as [key value|key]; simpl.
  - rewrite put_state. repeat split; simpl; auto.
    unfold WAL_replay in *. simpl.
    rewrite Hend, written_Newline, replay_lines_app, Hlog. reflexivity.
  - repeat split; auto.
Qed.

Lemma serve_all_only_logged e (rs : list (request V)) :
  only_logged e -> only_logged (serve_all e rs).
Proof.
  unfold serve_all. revert e.
  induction rs as [|r rest IH]; intros e Hinv; simpl; [exact Hinv|].
  apply IH. now apply serve_only_logged.
Qed.

Lemma memtable_after_requests key e (rs : list (request V)) :
  dict_get key (memtable (serve_all e rs))
  = match last_put key rs with
    | Some v => Some (Some v)
    | None => dict_get key (memtable e)
    end.
Proof.
  unfold serve_all. revert e.
  induction rs as [|r rest IH]; intros e; simpl; [reflexivity|].
  rewrite IH. destruct (last_put key rest); [reflexivity|].
  destruct r as [k v|k]; simpl.
  - rewrite put_state. simpl.
    destruct (String.eqb_spec k key) as [->|Hne].
    + apply dict_get_set_same.
    + apply dict_get_set_other. congruence.
  - reflexivity.
Qed.

Lemma get_without_tables key e :
  sstables e = [] ->
  LSMEngine_get key e
  = Returned (match dict_get key (memtable e) with Some v => v | None => None end).
Proof.
  intros Hst. unfold LSMEngine_get. rewrite Hst.
  now destruct (dict_get key (memtable e)).
Qed.

Lemma replay_lines_latest key (lines : list (wal_line V)) mem0 mem :
  replay_lines lines mem0 = Returned mem ->
  dict_get key mem
  = match last_record key lines with
    | Some v => Some v
    | None => dict_get key mem0
    end.
Proof.
  revert mem0. induction lines as [|l rest IH]; intros mem0; simpl.
  - now intros [= <-].
  - destruct l as [| |op k value]; simpl.
    + intros H. rewrite (IH _ H). now destruct (last_record key rest).
    + discriminate.
    + intros H.
      assert (Hset : forall v, dict_get key (dict_set k v mem0)
                               = if String.eqb k key then Some v else dict_get key mem0).
      { intros v. destruct (String.eqb_spec k key) as [->|Hne].
        - apply dict_get_set_same.
        - apply dict_get_set_other. congruence. }
      destruct (String.eqb op "put").
      * rewrite (IH _ H), Hset.
        destruct (last_record key rest); [reflexivity|].
        now destruct (String.eqb k key).
      * destruct (String.eqb op "del").
        -- rewrite (IH _ H), Hset.
           destruct (last_record key rest); [reflexivity|].
           now destruct (String.eqb k key).
        -- rewrite (IH _ H).
           destruct (last_record key rest); [reflexivity|].
           now destruct (String.eqb k key).
Qed.

Lemma init_only_logged limit e :
  only_logged e ->
  LSMEngine_init limit e = (Returned tt, set_memtable_limit limit e).
Proof.
  intros (Hlog & Hst & Hdf & Hif & Har & Hend).
  unfold LSMEngine_init, reads, sorted_tables, listdir. simpl. rewrite Hlog. simpl.
  rewrite Hdf, Hif, Har. simpl.
  destruct e; simpl in *; subst. reflexivity.
Qed.

Lemma open_tables_raises fp rest e :
  open_tables (fp :: rest) e = (Raised (TypeError NoItemAssignment), e).
Proof. reflexivity. Qed.

(** X8.  Read visibility: after any sequence of [put] and [delete] calls
    on an engine opened on a new directory, [get(key)] returns the value
    of the latest [put] of [key], and [None] when there was none; the
    [delete] calls, which all raise, change nothing of it. *)
Theorem get_returns_latest_put now limit (rs : list (request V)) key :
  LSMEngine_get key (serve_all (fresh_engine now limit) rs) = Returned (last_put key rs).
Proof.
  destruct (serve_all_only_logged _ rs (fresh_engine_only_logged now limit))
    as (_ & Hst & _).
  rewrite (get_without_tables _ _ Hst), memtable_after_requests. simpl.
  now destruct (last_put key rs).
Qed.

(** X9.  Most-recent-write-wins in replay: when [WAL.replay] returns, the
    mapping holds for each key what the latest put or del record of that
    key in the log says (the value put, [None] for a del), and has no
    entry for a key without such a record; blank lines and records of
    other kinds count for nothing. *)
Theorem replay_keeps_latest_record e mem key :
  WAL_replay e = Returned mem ->
  dict_get key mem = last_record key (wal_log e).
Proof.
  unfold WAL_replay. intros H. rewrite (replay_lines_latest key _ _ _ H).
  now destruct (last_record key (wal_log e)).
Qed.

(** X10.  Recovery: opening an engine again on the directory that any
    sequence of [put] and [delete] calls left behind succeeds and rebuilds
    the memtable from the log; [get] then returns for every key the value
    of the latest [put], as before the engine was lost. *)
Theorem reopen_recovers now limit limit' (rs : list (request V)) :
  LSMEngine_init limit' (serve_all (fresh_engine now limit) rs)
  = (Returned tt, set_memtable_limit limit' (serve_all (fresh_engine now limit) rs))
  /\ forall key,
      LSMEngine_get key (snd (LSMEngine_init limit' (serve_all (fresh_engine now limit) rs)))
      = Returned (last_put key rs).
Proof.
  pose proof (serve_all_only_logged _ rs (fresh_engine_only_logged now limit)) as Hinv.
  rewrite (init_only_logged limit' _ Hinv). split; [reflexivity|].
  intros key. destruct Hinv as (_ & Hst & _).
  rewrite get_without_tables by exact Hst. simpl.
  rewrite memtable_after_requests. simpl. now destruct (last_put key rs).
Qed.

(** X11.  An engine cannot be opened on a directory that holds a file
    named [sst_*.jsonl]: [LSMEngine.__init__] raises, and when the log
    replays the exception is the [TypeError] of [SSTable.__init__]. *)
Theorem open_fails_on_table_file limit e name :
  In name (listdir e) ->
  is_sst_data name = true ->
  exists ex,
    fst (LSMEngine_init limit e) = Raised ex
    /\ (forall mem, WAL_replay e = Returned mem -> ex = TypeError NoItemAssignment).
Proof.
  intros Hin Hsst. unfold LSMEngine_init, reads. simpl.
  destruct (WAL_replay e) as [mem|ex] eqn:Hlog; simpl.
  - set (e' := set_sstables [] (set_memtable_limit limit (set_memtable mem e))).
    destruct (sorted_tables e') as [|fp rest] eqn:Hsorted.
    + exfalso.
      assert (Hlen : length (sorted_tables e') = length (filter is_sst_data (listdir e))).
      { unfold sorted_tables. now rewrite length_map, sorted_by_key_length, length_map. }
      rewrite Hsorted in Hlen.
      assert (Hname : In name (filter is_sst_data (listdir e)))
        by (apply filter_In; auto).
      destruct (filter is_sst_data (listdir e)); [destruct Hname|].
      simpl in Hlen. discriminate Hlen.
    + rewrite open_tables_raises. simpl. eauto.
  - exists ex. split; [reflexivity | intros mem H; discriminate H].
Qed.


End LifecycleFacts.

Lemma replay_keeps_latest_record_witness :
  WAL_replay logged_engine = Returned [("a", None); ("b", Some "2")]
  /\ last_record "a" (wal_log logged_engine) = Some None
  /\ last_record "c" (wal_log logged_engine) = None.
Proof.
  split; [reflexivity|]. split.
  - rewrite <- (replay_keeps_latest_record logged_engine _ "a" eq_refl). reflexivity.
  - rewrite <- (replay_keeps_latest_record logged_engine _ "c" eq_refl). reflexivity.
Defined.

Lemma open_fails_on_table_file_witness :
  In "sst_1.jsonl" (listdir layered_engine)
  /\ is_sst_data "sst_1.jsonl" = true
  /\ exists ex, fst (LSMEngine_init 2000 layered_engine) = Raised ex.
Proof.
  assert (Hin : In "sst_1.jsonl" (listdir layered_engine)) by (right; left; reflexivity).
  split; [exact Hin|]. split; [reflexivity|].
  destruct (open_fails_on_table_file 2000 layered_engine "sst_1.jsonl" Hin eq_refl)
    as (ex & Hex & _).
  exists ex. exact Hex.
Defined.

(** ** Queries *)

Lemma answer_bind_Answered {A B : Type} (m : answer A) (k : A -> answer B) (b : B) :
  (x <- m ;; k x) = Answered b -> exists a, m = Answered a /\ k a = Answered b.
Proof. destruct m as [a|e]; simpl; [eauto | discriminate]. Qed.

(** With no filter and no limit the loop of [find_all] is the plain
    collection of what the scan yields. *)
Lemma collect_matching_plain g acc :
  collect_matching None None g acc
  = match collect g acc with
    | Returned found => Answered found
    | Raised ex => Failed (ScanError ex)
    end.
Proof.
  revert acc. induction g as [|[[doc_id d]|ex] rest IH]; intros acc; simpl; auto.
Qed.

Lemma collect_matching_extends filter limit g acc found :
  collect_matching filter limit g acc = Answered found ->
  exists more, found = (acc ++ more)%list.
Proof.
  revert acc. induction g as [|[[doc_id d]|ex] rest IH]; intros acc; simpl.
  - intros [= <-]. exists []. now rewrite app_nil_r.
  - intros H. apply answer_bind_Answered in H. destruct H as ([] & _ & H).
    + destruct (limit_reached limit (acc ++ [mkDocument doc_id d])).
      * injection H as <-. eauto.
      * destruct (IH _ H) as [more ->]. rewrite <- app_assoc. eauto.
    + eauto.
  - discriminate.
Qed.

Lemma collect_matching_sound filter limit g acc found w :
  collect_matching filter limit g acc = Answered found ->
  In w found ->
  In w acc
  \/ (In (Yield (_id w, _doc w)) g /\ _matches (_doc w) filter = Answered true).
Proof.
  revert acc. induction g as [|[[doc_id d]|ex] rest IH]; intros acc; simpl.
  - intros [= <-]. auto.
  - intros H Hw. apply answer_bind_Answered in H. destruct H as ([] & Hm & H).
    + assert (Hnew : In w (acc ++ [mkDocument doc_id d])%list ->
                     In w acc \/ (Yield (doc_id, d) = Yield (_id w, _doc w)
                                  /\ _matches (_doc w) filter = Answered true)).
      { intros Hin. apply in_app_or in Hin. destruct Hin as [Hin|[<-|[]]]; auto. }
      destruct (limit_reached limit (acc ++ [mkDocument doc_id d])).
      * injection H as <-. destruct (Hnew Hw) as [?|[? ?]]; auto.
      * destruct (IH _ H Hw) as [Hin|[? ?]]; [|auto].
        destruct (Hnew Hin) as [?|[? ?]]; auto.
    + destruct (IH _ H Hw) as [?|[? ?]]; auto.
  - discriminate.
Qed.

Lemma collect_matching_zero filter g acc :
  collect_matching filter (Some 0%Z) g acc = collect_matching filter None g acc.
Proof.
  revert acc. induction g as [|[[doc_id d]|ex] rest IH]; intros acc; simpl; auto.
  destruct (_matches d filter) as [[]|]; simpl; auto.
Qed.

(** A positive limit stops the loop at the first [limit] matches. *)
Lemma collect_matching_limit filter n g acc found :
  (0 < n)%Z ->
  (len acc < n)%Z ->
  collect_matching filter None g acc = Answered found ->
  collect_matching filter (Some n) g acc = Answered (firstn (Z.to_nat n) found).
Proof.
  intros Hpos. revert acc found.
  induction g as [|[[doc_id d]|ex] rest IH]; intros acc found Hroom; simpl.
  - intros [= <-]. unfold len in Hroom. rewrite firstn_all2; [reflexivity | lia].
  - intros H. apply answer_bind_Answered in H. destruct H as ([] & Hm & H);
      rewrite Hm; simpl in *.
    + destruct (Z.eqb_spec n 0); [lia|]. simpl.
      destruct (Z.geb_spec (len (acc ++ [mkDocument doc_id d])) n) as [Hfull|Hmore].
      * destruct (collect_matching_extends _ _ _ _ _ H) as [more ->].
        unfold len in *. rewrite length_app in *. simpl in *.
        rewrite firstn_app, firstn_all2 by (rewrite length_app; simpl; lia).
        replace (Z.to_nat n - length (acc ++ [mkDocument doc_id d]))%nat with 0%nat
          by (rewrite length_app; simpl; lia).
        now rewrite app_nil_r.
      * apply IH; [lia | exact H].
    + apply IH; [exact Hroom | exact H].
  - discriminate.
Qed.

Lemma known_op_false (op : string) :
  known_op op = false ->
  String.eqb op "$eq" = false /\ String.eqb op "$gt" = false
  /\ String.eqb op "$gte" = false /\ String.eqb op "$lt" = false
  /\ String.eqb op "$lte" = false.
Proof.
  unfold known_op. simpl. intros H.
  repeat (apply orb_false_iff in H; destruct H as [? H]). auto.
Qed.

Lemma filter_holds_app d (before rest : dict cond) :
  filter_holds d (before ++ rest)%list
  = (ok <- filter_holds d before ;;
     if (ok : bool) then filter_holds d rest else Answered false).
Proof.
  induction before as [|[field c] more IH]; simpl; [reflexivity|].
  destruct (cond_holds d field c) as [[]|]; simpl; auto.
Qed.

Lemma ops_hold_app val (before rest : dict value) :
  ops_hold val (before ++ rest)%list
  = (ok <- ops_hold val before ;;
     if (ok : bool) then ops_hold val rest else Answered false).
Proof.
  induction before as [|[op cmp_val] more IH]; simpl; [reflexivity|].
  destruct (op_holds op val cmp_val) as [[]|]; simpl; auto.
Qed.

(** X14.  What a query returns was asked for and is there: every document
    [find_all(filter, limit)] returns satisfies the filter and is stored,
    with a present value, under the collection's prefix and its
    identifier, in the memtable or in a table's data file. *)
Theorem find_all_with_sound filter limit c found w :
  Collection_find_all_with filter limit c = Answered found ->
  In w found ->
  _matches (_doc w) filter = Answered true /\ stored_under c (_id w) (_doc w).
Proof.
  unfold Collection_find_all_with, _scan_docs, stored_under. intros Hfound Hw.
  destruct (collect_matching_sound _ _ _ _ _ _ Hfound Hw) as [[]|[Hyield Hm]].
  split; [exact Hm|].
  apply scan_memtable_yields in Hyield. destruct Hyield as [Hmem|[seen Htab]]; [auto|].
  right. now apply scan_tables_yields in Htab.
Qed.

(** X15.  A limit cuts the answer and nothing else: when
    [find_all(filter)] returns, [find_all(filter, limit)] returns its
    first [limit] documents for a positive [limit], and all of them for
    the limit [0]. *)
Theorem limit_keeps_first_matches filter c found :
  Collection_find_all_with filter None c = Answered found ->
  Collection_find_all_with filter (Some 0%Z) c = Answered found
  /\ forall n, (0 < n)%Z ->
       Collection_find_all_with filter (Some n) c = Answered (firstn (Z.to_nat n) found).
Proof.
  unfold Collection_find_all_with. intros Hall. split.
  - now rewrite collect_matching_zero.
  - intros n Hpos. apply collect_matching_limit; [exact Hpos | unfold len; simpl; lia | exact Hall].
Qed.

(** X16.  [find_one(filter)] is the first document of [find_all(filter)],
    and [None] when that is empty, whenever [find_all(filter)] returns. *)
Theorem find_one_is_first_match filter c found :
  Collection_find_all_with filter None c = Answered found ->
  Collection_find_one filter c = Answered (hd_error found).
Proof.
  unfold Collection_find_one, Collection_find_all_with. intros Hall.
  rewrite (collect_matching_limit filter 1%Z _ [] found);
    [|lia | reflexivity | exact Hall].
  simpl. now destruct found.
Qed.

(** X17.  An ordering operator on a field the document lacks raises: when
    the entries of the filter before it hold and the operators before it
    in its condition hold, [_matches] raises the [TypeError] of comparing
    [None], where a query would expect the document not to match. *)
Theorem ordering_filter_on_missing_field_raises
    d before field ops_before op bound ops_after after :
  filter_holds d before = Answered true ->
  ops_hold (doc_get field d) ops_before = Answered true ->
  doc_get field d = VNone ->
  ordering_op op = true ->
  _matches d (Some (before ++ (field, Ops (ops_before ++ (op, bound) :: ops_after)) :: after)%list)
  = Failed (NotComparable VNone bound).
Proof.
  intros Hbefore Hops Hnone Hop. simpl.
  rewrite filter_holds_app, Hbefore. simpl. unfold cond_holds.
  rewrite ops_hold_app, Hops. simpl. rewrite Hnone.
  unfold op_holds, ordering_op in *. simpl in Hop.
  destruct (String.eqb_spec op "$eq") as [->|_]; [discriminate Hop|].
  destruct (String.eqb op "$gt"); [now destruct bound|].
  destruct (String.eqb op "$gte"); [now destruct bound|].
  destruct (String.eqb op "$lt"); [now destruct bound|].
  destruct (String.eqb op "$lte"); [now destruct bound | discriminate Hop].
Qed.

(** X18.  Operators [_matches] does not know are ignored: a condition
    holds exactly as it does with them taken out, so one made only of
    unknown operators holds of every document. *)
Theorem unknown_operators_ignored val (ops : dict value) :
  ops_hold val (filter (fun ov => known_op (fst ov)) ops) = ops_hold val ops.
Proof.
  induction ops as [|[op cmp_val] rest IH]; simpl; [reflexivity|].
  destruct (known_op op) eqn:Hknown; simpl.
  - now rewrite IH.
  - destruct (known_op_false op Hknown) as (H1 & H2 & H3 & H4 & H5).
    unfold op_holds. rewrite H1, H2, H3, H4, H5. simpl. exact IH.
Qed.

Lemma find_all_with_sound_witness :
  Collection_find_all_with adults (Some 1%Z) three_users = Answered [mkDocument "1" bob]
  /\ _matches bob adults = Answered true
  /\ stored_under three_users "1" bob.
Proof.
  split; [reflexivity|].
  apply (find_all_with_sound adults (Some 1%Z) three_users [mkDocument "1" bob]
           (mkDocument "1" bob)); [reflexivity | now left].
Defined.

Lemma limit_keeps_first_matches_witness :
  Collection_find_all_with adults None three_users
  = Answered [mkDocument "1" bob; mkDocument "u2" carol]
  /\ Collection_find_all_with adults (Some 1%Z) three_users = Answered [mkDocument "1" bob].
Proof.
  split; [reflexivity|].
  apply (proj2 (limit_keeps_first_matches adults three_users
                  [mkDocument "1" bob; mkDocument "u2" carol] eq_refl) 1%Z).
  reflexivity.
Defined.

Lemma find_one_is_first_match_witness :
  Collection_find_all_with adults None three_users
  = Answered [mkDocument "1" bob; mkDocument "u2" carol]
  /\ Collection_find_one adults three_users = Answered (Some (mkDocument "1" bob)).
Proof.
  split; [reflexivity|].
  apply (find_one_is_first_match adults three_users
           [mkDocument "1" bob; mkDocument "u2" carol] eq_refl).
Defined.

Lemma ordering_filter_on_missing_field_raises_witness :
  doc_get "role" carol = VNone
  /\ _matches carol (Some [("age", Literal (VInt 41)); ("role", Ops [("$gt", VStr "a")])])
     = Failed (NotComparable VNone (VStr "a")).
Proof.
  split; [reflexivity|].
  apply (ordering_filter_on_missing_field_raises carol [("age", Literal (VInt 41))]
           "role" [] "$gt" (VStr "a") [] []); reflexivity.
Defined.

(** ** Writing and reading documents *)

Lemma to_stored_value c d stored :
  _to_stored c d = Returned stored -> stored = Json d /\ within_digit_limit d = true.
Proof.
  unfold _to_stored. destruct (schema c) as [s|]; simpl.
  - destruct (Schema_validate s d [] []); simpl; [|discriminate].
    apply json_dumps_Returned.
  - apply json_dumps_Returned.
Qed.

(** Where [insert] can leave the collection: as it was when a step before
    the write raised, else with the text of the document written,
    registered when [put] returned. *)
Lemma insert_cases uuid d doc_id colls c r c' :
  Collection_insert uuid d doc_id colls c = (r, c') ->
  (exists ex, r = Raised ex /\ c' = c)
  \/ (exists ex, r = Raised ex
        /\ within_digit_limit d = true
        /\ c' = set_engine (after_put (_k c (chosen_id uuid doc_id)) (Json d) (engine c)) c)
  \/ (r = Returned (chosen_id uuid doc_id)
      /\ within_digit_limit d = true
      /\ c' = registered d
                (set_engine (after_put (_k c (chosen_id uuid doc_id)) (Json d) (engine c)) c)).
Proof.
  rewrite insert_steps. unfold chosen_id.
  destruct (gather_existing c) as [existing|ex]; [|intros [= <- <-]; eauto].
  destruct (validate_if_schema c d existing colls) as [[]|ex]; [|intros [= <- <-]; eauto].
  destruct (_to_stored c d) as [stored|ex] eqn:Hstored; [|intros [= <- <-]; eauto].
  apply to_stored_value in Hstored. destruct Hstored as [-> Hd]. cbv zeta.
  pose proof (put_state (_k c match doc_id with Some i => i | None => uuid end)
                        (Json d) (engine c)) as Hput.
  destruct (LSMEngine_put _ (Json d) (engine c)) as [[[]|ex] e']; simpl in Hput; subst e';
    intros [= <- <-]; [right; right | right; left; exists ex]; auto.
Qed.

Lemma get_after_write c doc_id d :
  within_digit_limit d = true ->
  Collection_get (registered d (set_engine (after_put (_k c doc_id) (Json d) (engine c)) c))
                 doc_id
  = Returned (Some d).
Proof. intros Hd. rewrite get_ignores_registry. now apply get_after_put. Qed.

(** X19.  Insert then get: when [insert] returns, it returns the
    identifier it was given, or the generated one when it was given none,
    and [get] of that identifier returns the inserted document. *)
Theorem insert_then_get uuid d doc_id colls c doc_id' c' :
  Collection_insert uuid d doc_id colls c = (Returned doc_id', c') ->
  doc_id' = match doc_id with Some i => i | None => uuid end
  /\ Collection_get c' doc_id' = Returned (Some d).
Proof.
  intros H. apply insert_cases in H.
  destruct H as [(ex & [=] & _)|[(ex & [=] & _)|([= ->] & Hd & ->)]].
  split; [reflexivity | now apply get_after_write].
Qed.


(** X26.  A reference to a document just inserted validates: after
    [insert] returned an identifier for a non-empty document, the
    reference check of a field that holds this identifier passes when the
    caller passes the collection, as it is after the insert, under the
    name the rule refers to. *)
Theorem reference_to_inserted_document_passes
    uuid d doc_id colls c doc_id' c' field r name colls' :
  Collection_insert uuid d doc_id colls c = (Returned doc_id', c') ->
  d <> [] ->
  r_ref r = Some name ->
  dict_get name colls' = Some c' ->
  check_ref field r (VStr doc_id') colls' = Returned tt.
Proof.
  intros H Hd Hr Hc. apply insert_cases in H.
  destruct H as [(ex & [=] & _)|[(ex & [=] & _)|([= ->] & Hlimit & ->)]].
  unfold check_ref. rewrite Hr, Hc, (get_after_write _ _ _ Hlimit). simpl.
  destruct d; [congruence | reflexivity].
Qed.

Lemma insert_then_get_witness :
  fst (Collection_insert "u2" carol None [] (users_with None bob)) = Returned "u2"
  /\ Collection_get (snd (Collection_insert "u2" carol None [] (users_with None bob))) "u2"
     = Returned (Some carol).
Proof.
  split; [reflexivity|].
  exact (proj2 (insert_then_get "u2" carol None [] (users_with None bob) "u2" _ eq_refl)).
Defined.


Lemma reference_to_inserted_document_passes_witness :
  fst (Collection_insert "bob-id" bob None [] (users (Some user_schema))) = Returned "bob-id"
  /\ Schema_validate file_schema (resume "bob-id") []
       [("users", snd (Collection_insert "bob-id" bob None [] (users (Some user_schema))))]
     = Returned true
  /\ check_ref "user_id" user_id_rules (VStr "bob-id")
       [("users", snd (Collection_insert "bob-id" bob None [] (users (Some user_schema))))]
     = Returned tt.
Proof.
  split; [reflexivity|]. split; [reflexivity|].
  apply (reference_to_inserted_document_passes "bob-id" bob None []
           (users (Some user_schema)) "bob-id"
           (snd (Collection_insert "bob-id" bob None [] (users (Some user_schema))))
           "user_id" user_id_rules "users");
    [reflexivity | discriminate | reflexivity | reflexivity].
Defined.

(** ** What the scan surfaces, and what a write leaves alone *)

Lemma startswith_app (pfx rest : string) :
  startswith (pfx ++ rest) pfx = true.
Proof.
  unfold startswith. induction pfx as [|a pfx IH]; simpl.
  - now destruct rest.
  - destruct (ascii_dec a a); [exact IH | congruence].
Qed.

Lemma str_from_app (pfx rest : string) :
  str_from (String.length pfx) (pfx ++ rest) = rest.
Proof. induction pfx as [|a pfx IH]; simpl; auto. Qed.

Lemma collect_keeps g acc found w :
  collect g acc = Returned found -> In w acc -> In w found.
Proof.
  revert acc. induction g as [|[[i d]|ex] rest IH]; intros acc; simpl.
  - now intros [= <-].
  - intros Hc Hw. eapply IH; [exact Hc|]. apply in_or_app. now left.
  - discriminate.
Qed.

Lemma collect_complete g acc found doc_id d :
  collect g acc = Returned found ->
  In (Yield (doc_id, d)) g ->
  In (mkDocument doc_id d) found.
Proof.
  revert acc. induction g as [|[[i d']|ex] rest IH]; intros acc; simpl.
  - intros _ [].
  - intros Hc [[= -> ->]|Hin]; [|eauto].
    eapply collect_keeps; [exact Hc|]. apply in_or_app. right. now left.
  - discriminate.
Qed.

Lemma collect_meets_no_throw g acc found ex :
  collect g acc = Returned found -> ~ In (Throw ex) g.
Proof.
  revert acc. induction g as [|[[i d]|ex'] rest IH]; intros acc; simpl.
  - intros _ [].
  - intros Hc [[=]|Hin]. eapply IH; eauto.
  - discriminate.
Qed.

(** The first loop of the scan reaches every memtable entry of the prefix
    whose value is the text of a document, unless it raises first. *)
Lemma scan_memtable_complete pfx items seen next doc_id d :
  In (pfx ++ doc_id, Some (Json d)) items ->
  In (Yield (doc_id, d)) (scan_memtable pfx items seen next)
  \/ exists ex, In (Throw ex) (scan_memtable pfx items seen next).
Proof.
  revert seen. induction items as [|[k v] rest IH]; intros seen; simpl; [tauto|].
  intros [[= -> ->]|Hin].
  - rewrite startswith_app, str_from_app. simpl.
    destruct (within_digit_limit d); simpl; [left | right; eexists]; now left.
  - destruct (startswith k pfx); simpl; [|auto].
    destruct v as [raw|]; simpl; [|auto].
    destruct (_from_stored raw) as [d'|ex]; simpl.
    + destruct (IH (set_add (str_from (String.length pfx) k) seen) Hin) as [H|[ex H]];
        eauto.
    + right. exists ex. now left.
Qed.

Lemma scan_memtable_set_other pfx k v items seen next :
  startswith k pfx = false ->
  scan_memtable pfx (dict_set k v items) seen next = scan_memtable pfx items seen next.
Proof.
  intros Hk. revert seen. induction items as [|[k' v'] rest IH]; intros seen; simpl.
  - now rewrite Hk.
  - destruct (String.eqb_spec k' k) as [->|Hne]; simpl.
    + now rewrite Hk.
    + destruct (startswith k' pfx); simpl; [|auto].
      destruct v' as [raw|]; simpl; [|auto].
      destruct (_from_stored raw); [|reflexivity].
      now rewrite IH.
Qed.

Lemma scan_data_lines_ext pfx lines seen (next next' : list string -> gen (string * doc)) :
  (forall seen', next seen' = next' seen') ->
  scan_data_lines pfx lines seen next = scan_data_lines pfx lines seen next'.
Proof.
  intros Hnext. revert seen. induction lines as [|l rest IH]; intros seen; simpl; [auto|].
  destruct l as [| |k v]; auto.
  destruct (startswith k pfx); simpl; [|auto].
  destruct (set_mem (str_from (String.length pfx) k) seen); [auto|].
  destruct v as [raw|]; [|auto].
  destruct (_from_stored raw); [|reflexivity].
  now rewrite IH.
Qed.

Lemma scan_memtable_ext pfx items seen (next next' : list string -> gen (string * doc)) :
  (forall seen', next seen' = next' seen') ->
  scan_memtable pfx items seen next = scan_memtable pfx items seen next'.
Proof.
  intros Hnext. revert seen. induction items as [|[k v] rest IH]; intros seen; simpl; [auto|].
  destruct (startswith k pfx); simpl; [|auto].
  destruct v as [raw|]; simpl; [|auto].
  destruct (_from_stored raw); [|reflexivity].
  now rewrite IH.
Qed.

Lemma scan_tables_same_files pfx ssts (e e' : LSMEngine text) seen :
  data_files e' = data_files e ->
  scan_tables pfx ssts e' seen = scan_tables pfx ssts e seen.
Proof.
  intros Hfiles. revert seen. induction ssts as [|sst rest IH]; intros seen; simpl;
    [reflexivity|].
  rewrite Hfiles. destruct (dict_get (data_path sst) (data_files e)); [|reflexivity].
  apply scan_data_lines_ext. exact IH.
Qed.

Lemma engine_registered d c : engine (registered d c) = engine c.
Proof. unfold registered. now destruct (schema c). Qed.

(** The scan of a collection on an engine after a write under a key
    outside the collection's prefix. *)
Lemma scan_after_foreign_put c k v :
  startswith k (prefix c) = false ->
  _scan_docs (set_engine (after_put k v (engine c)) c) = _scan_docs c.
Proof.
  intros Hk. unfold _scan_docs. simpl.
  rewrite scan_memtable_set_other by exact Hk.
  apply scan_memtable_ext. intros seen. now apply scan_tables_same_files.
Qed.

(** X21.  When [find_all()] returns, it surfaces every memtable entry of
    the collection's prefix whose value is a document: the entry under
    [<prefix><doc_id>] comes back as the document with identifier
    [doc_id]. *)
Theorem find_all_surfaces_memtable c found doc_id d :
  Collection_find_all c = Returned found ->
  In (prefix c ++ doc_id, Some (Json d)) (memtable (engine c)) ->
  In (mkDocument doc_id d) found.
Proof.
  unfold Collection_find_all, _scan_docs. intros Hfound Hin.
  eapply collect_complete; [exact Hfound|].
  destruct (scan_memtable_complete (prefix c) _ []
              (fun seen => scan_tables (prefix c) (rev (sstables (engine c))) (engine c) seen)
              doc_id d Hin) as [Hy|[ex Hthrow]]; [exact Hy|].
  exfalso. exact (collect_meets_no_throw _ _ _ ex Hfound Hthrow).
Qed.

(** X22.  Isolation of writes: an [insert] into one collection, whether
    it returns or raises, leaves [find_all()] of another collection on the
    same engine as it was, when the key written does not start with the
    other collection's prefix. *)
Theorem insert_leaves_other_collection uuid d doc_id colls c1 c2 :
  engine c2 = engine c1 ->
  startswith (_k c1 (chosen_id uuid doc_id)) (prefix c2) = false ->
  Collection_find_all
    (set_engine (engine (snd (Collection_insert uuid d doc_id colls c1))) c2)
  = Collection_find_all c2.
Proof.
  intros Hshare Hkey.
  destruct (Collection_insert uuid d doc_id colls c1) as [r c1'] eqn:Hins.
  apply insert_cases in Hins. simpl. unfold Collection_find_all.
  destruct Hins as [(ex & _ & ->)|[(ex & _ & _ & ->)|(_ & _ & ->)]].
  - rewrite <- Hshare. now destruct c2.
  - simpl. rewrite <- Hshare. now rewrite scan_after_foreign_put.
  - rewrite engine_registered. simpl. rewrite <- Hshare.
    now rewrite scan_after_foreign_put.
Qed.

Lemma find_all_surfaces_memtable_witness :
  Collection_find_all three_users
  = Returned [mkDocument "1" bob; mkDocument "u2" carol; mkDocument "u3" dave]
  /\ In (mkDocument "u2" carol)
        [mkDocument "1" bob; mkDocument "u2" carol; mkDocument "u3" dave].
Proof.
  split; [reflexivity|].
  apply (find_all_surfaces_memtable three_users _ "u2" carol); [reflexivity|].
  right. left. reflexivity.
Defined.

Lemma insert_leaves_other_collection_witness :
  startswith (_k (users_with None bob) (chosen_id "u2" None))
             (prefix (mkCollection (engine (users_with None bob)) "files:" None)) = false
  /\ Collection_find_all
       (mkCollection (engine (snd (Collection_insert "u2" carol None [] (users_with None bob))))
                     "files:" None)
     = Collection_find_all (mkCollection (engine (users_with None bob)) "files:" None).
Proof.
  split; [reflexivity|].
  exact (insert_leaves_other_collection "u2" carol None [] (users_with None bob)
           (mkCollection (engine (users_with None bob)) "files:" None) eq_refl eq_refl).
Defined.

(** ** The schema's registry *)

Lemma py_eq_canon (a b : value) :
  py_eq a b = true <-> canon a = canon b.
Proof.
  unfold py_eq, canon.
  destruct a as [|[]|x|s], b as [|[]|y|t]; cbn [as_int];
    rewrite ?Z.eqb_eq, ?String.eqb_eq;
    split; intros H; congruence.
Qed.

Lemma py_eq_trans (a b c : value) :
  py_eq a b = true -> py_eq b c = true -> py_eq a c = true.
Proof. rewrite !py_eq_canon. congruence. Qed.

Lemma py_eq_None (a b : value) :
  py_eq a b = true -> b <> VNone -> a <> VNone.
Proof.
  rewrite py_eq_canon. intros H Hb ->. apply Hb.
  destruct b as [|[]| |]; simpl in H; congruence.
Qed.

Lemma values_add_holds (v' v : value) (seen : list value) :
  py_eq v' v = true -> existsb (py_eq v') (values_add v seen) = true.
Proof.
  intros Heq. unfold values_add.
  destruct (existsb (py_eq v) seen) eqn:Hseen; simpl.
  - apply existsb_exists in Hseen. destruct Hseen as (x & Hx & Hvx).
    apply existsb_exists. exists x. split; [exact Hx|]. eapply py_eq_trans; eauto.
  - now rewrite Heq.
Qed.

Lemma register_lookup s d field seen :
  dict_get field (_unique_values s) = Some seen ->
  dict_get field (_unique_values (Schema_register s d))
  = Some (match doc_get field d with
          | VNone => seen
          | val => values_add val seen
          end).
Proof.
  unfold Schema_register. simpl.
  induction (_unique_values s) as [|[f vs] rest IH]; simpl; [discriminate|].
  destruct (String.eqb_spec f field) as [->|Hne].
  - intros [= ->]. destruct (doc_get field d); simpl; now rewrite String.eqb_refl.
  - intros H. destruct (doc_get f d); simpl;
      (destruct (String.eqb_spec f field); [congruence | auto]).
Qed.

Lemma register_keeps_fields s d :
  dict_keys (_unique_values (Schema_register s d)) = dict_keys (_unique_values s).
Proof.
  unfold Schema_register, dict_keys. simpl. rewrite map_map.
  apply map_ext. intros [f vs]. simpl. now destruct (doc_get f d).
Qed.

Lemma init_tracks_unique_fields (fs : dict rules) field r :
  In (field, r) fs ->
  unique_truthy r = true ->
  In field (dict_keys (_unique_values (Schema_init fs))).
Proof.
  intros Hin Hu. unfold Schema_init, dict_keys. simpl. rewrite map_map. simpl.
  apply in_map_iff. exists (field, r). split; [reflexivity|].
  apply filter_In. auto.
Qed.

(** X23.  The registry does not forget: once [register(d)] has taken the
    value of a tracked unique field, [validate] rejects every document
    with an equal value for that field, at the field's type check or else
    as a duplicate, whatever documents are passed as existing, and so
    with the registered document itself left out of them. *)
Theorem registered_value_stays_taken s d d' existing colls field r seen :
  dict_get field (_unique_values s) = Some seen ->
  unique_truthy r = true ->
  doc_get field d <> VNone ->
  py_eq (doc_get field d') (doc_get field d) = true ->
  validate_field (Schema_register s d) d' existing colls field r
  = match check_type field r (doc_get field d') with
    | Returned _ => Raised (ValueError (Duplicate field (doc_get field d')))
    | Raised ex => Raised ex
    end.
Proof.
  intros Hreg Hu Hval Heq.
  pose proof (py_eq_None _ _ Heq Hval) as Hval'.
  assert (Htaken : check_unique (Schema_register s d) field r (doc_get field d') existing
                   = Raised (ValueError (Duplicate field (doc_get field d')))).
  { assert (Hin : existsb (py_eq (doc_get field d'))
                          (match doc_get field d with
                           | VNone => seen
                           | val => values_add val seen
                           end) = true).
    { destruct (doc_get field d) eqn:E; [congruence| | |];
        now apply values_add_holds. }
    unfold check_unique.
    rewrite Hu, (register_lookup s d field seen Hreg), Hin.
    now destruct (existsb _ existing). }
  unfold validate_field.
  destruct (doc_get field d') eqn:E; [congruence| | |];
    (destruct (check_type field r _); simpl; [|reflexivity]);
    now rewrite Htaken.
Qed.

(** X24.  The registry tracks every unique field: for a schema built by
    [Schema(fields)] and any documents registered since, each field with
    a true [unique] rule has its set in the registry, so the unique check
    of [validate] either passes or reports a duplicate and never fails to
    find the set. *)
Theorem registry_tracks_unique_fields (fs : dict rules) (docs : list doc) field r :
  In (field, r) fs ->
  unique_truthy r = true ->
  (exists seen,
      dict_get field (_unique_values (fold_left Schema_register docs (Schema_init fs)))
      = Some seen)
  /\ forall val existing,
      check_unique (fold_left Schema_register docs (Schema_init fs)) field r val existing
      = Returned tt
      \/ check_unique (fold_left Schema_register docs (Schema_init fs)) field r val existing
         = Raised (ValueError (Duplicate field val)).
Proof.
  intros Hin Hu.
  assert (Hkeys : forall s,
             dict_keys (_unique_values (fold_left Schema_register docs s))
             = dict_keys (_unique_values s)).
  { induction docs as [|d rest IH]; intros s; simpl; [reflexivity|].
    now rewrite IH, register_keeps_fields. }
  assert (Hseen : exists seen,
             dict_get field (_unique_values (fold_left Schema_register docs (Schema_init fs)))
             = Some seen).
  { apply dict_get_of_key. rewrite Hkeys. eapply init_tracks_unique_fields; eauto. }
  split; [exact Hseen|]. intros val existing. destruct Hseen as [seen Hseen].
  unfold check_unique. rewrite Hu, Hseen.
  destruct (existsb _ existing); simpl; [now right|].
  destruct (existsb (py_eq val) seen); simpl; auto.
Qed.

(** X25.  No field is required: a document in which every field of the
    schema is absent or [None], the empty document among them, passes
    [validate] whatever the rules, the existing documents and the
    collections are. *)
Theorem absent_fields_are_permitted s d existing colls :
  (forall field r, In (field, r) (fields s) -> doc_get field d = VNone) ->
  Schema_validate s d existing colls = Returned true.
Proof.
  unfold Schema_validate. intros Habsent.
  assert (H : validate_fields s d existing colls (fields s) = Returned tt).
  { induction (fields s) as [|[field r] rest IH]; simpl; [reflexivity|].
    unfold validate_field. rewrite (Habsent field r) by now left. simpl.
    apply IH. intros f r' Hin. apply (Habsent f r'). now right. }
  now rewrite H.
Qed.

Lemma registered_value_stays_taken_witness :
  dict_get "name" (_unique_values user_schema) = Some []
  /\ py_eq (doc_get "name" bob_older) (doc_get "name" bob) = true
  /\ validate_field (Schema_register user_schema bob) bob_older [] [] "name" name_rules
     = Raised (ValueError (Duplicate "name" (VStr "Bob"))).
Proof.
  split; [reflexivity|]. split; [reflexivity|].
  assert (Hpresent : doc_get "name" bob <> VNone) by discriminate.
  exact (registered_value_stays_taken user_schema bob bob_older [] [] "name" name_rules []
           eq_refl eq_refl Hpresent eq_refl).
Defined.

Lemma registry_tracks_unique_fields_witness :
  In ("name", name_rules) [("name", name_rules); ("age", age_rules); ("role", role_rules)]
  /\ exists seen,
      dict_get "name" (_unique_values (fold_left Schema_register [bob; carol] user_schema))
      = Some seen.
Proof.
  assert (Hin : In ("name", name_rules)
                   [("name", name_rules); ("age", age_rules); ("role", role_rules)])
    by now left.
  split; [exact Hin|].
  exact (proj1 (registry_tracks_unique_fields _ [bob; carol] "name" name_rules Hin eq_refl)).
Defined.

Lemma absent_fields_are_permitted_witness :
  (forall field r, In (field, r) (fields user_schema) ->
                   doc_get field [("note", VStr "x")] = VNone)
  /\ Schema_validate user_schema [("note", VStr "x")] [bob] [] = Returned true.
Proof.
  assert (H : forall field r, In (field, r) (fields user_schema) ->
                              doc_get field [("note", VStr "x")] = VNone).
  { intros field r [[= <- _]|[[= <- _]|[[= <- _]|[]]]]; reflexivity. }
  split; [exact H|].
  exact (absent_fields_are_permitted user_schema [("note", VStr "x")] [bob] [] H).
Defined.

(** ** store.py *)

Lemma after_put_only_logged key (v : text) (e : LSMEngine text) :
  only_logged e -> only_logged (after_put key v e).
Proof.
  intros H. rewrite <- put_state. exact (serve_only_logged e (Put key v) H).
Qed.

Lemma get_from_memtable c doc_id d :
  sstables (engine c) = [] ->
  dict_get (_k c doc_id) (memtable (engine c)) = Some (Some (Json d)) ->
  within_digit_limit d = true ->
  Collection_get c doc_id = Returned (Some d).
Proof.
  intros Hst Hmem Hd. unfold Collection_get.
  rewrite (get_without_tables _ _ Hst), Hmem. simpl. now rewrite Hd.
Qed.

(** X27.  The first schema wins: a second call of
    [store.collection(name, ...)] returns the object the first call
    returned and leaves the store as the first call left it, whatever
    schema it is given. *)
Theorem collection_keeps_first_schema name s1 s2 st :
  DocumentStore_collection name s2 (snd (DocumentStore_collection name s1 st))
  = DocumentStore_collection name s1 st.
Proof.
  unfold DocumentStore_collection, get_state, modify, dict_has. simpl.
  destruct (dict_get name (collections st)) as [s|] eqn:Hreg; simpl.
  - rewrite !Hreg. simpl. rewrite !Hreg. reflexivity.
  - do 3 (cbn; rewrite ?dict_get_set_same). reflexivity.
Qed.

(** X28.  A document inserted through a store outlives the store: on a
    directory that holds the log alone, a log that ends with a newline
    and replays to the memtable, once [insert] has returned, [close]
    raises the [TypeError] of the flush and changes nothing, and a store
    opened on the directory afterwards returns the document from [get] of
    its identifier, for the collection of the same name with any schema. *)
Theorem stored_document_survives_reopen name uuid d doc_id colls st doc_id' st' :
  only_logged (store_engine st) ->
  in_collection name (Collection_insert uuid d doc_id colls) st = (Returned doc_id', st') ->
  DocumentStore_close st' = (Raised (TypeError NoItemAssignment), st')
  /\ exists st2,
      DocumentStore_init (store_engine st') = Returned st2
      /\ forall s, Collection_get (collection_object st2 name s) doc_id' = Returned (Some d).
Proof.
  intros Hinv. unfold in_collection.
  destruct (dict_get name (collections st)) as [s0|]; [|discriminate].
  destruct (Collection_insert uuid d doc_id colls (collection_object st name s0))
    as [r c'] eqn:Hins.
  intros [= -> <-]. apply insert_cases in Hins.
  destruct Hins as [(ex & [=] & _)|[(ex & [=] & _)|([= ->] & Hd & ->)]].
  rewrite engine_registered. simpl engine.
  set (k := _k (collection_object st name s0) (chosen_id uuid doc_id)).
  pose proof (after_put_only_logged k (Json d) _ Hinv) as Hinv'.
  split.
  - unfold DocumentStore_close, LSMEngine_close. simpl.
    rewrite flush_nonempty_raises; [reflexivity|].
    simpl. apply dict_set_not_empty.
  - unfold DocumentStore_init. simpl store_engine.
    rewrite (init_only_logged 2000 _ Hinv'). eexists. split; [reflexivity|].
    intros s. apply get_from_memtable; [| |exact Hd].
    + simpl. now destruct Hinv as (_ & -> & _).
    + simpl. apply dict_get_set_same.
Qed.

Lemma stored_document_survives_reopen_witness :
  only_logged (fresh_engine (V:=text) 0 2000)
  /\ exists st2,
      DocumentStore_init
        (store_engine
           (snd (in_collection "users" (Collection_insert "u9" bob None [])
                   (mkStore (fresh_engine 0 2000) Open [("users", Some user_schema)]))))
      = Returned st2
      /\ forall s, Collection_get (collection_object st2 "users" s) "u9" = Returned (Some bob).
Proof.
  assert (Hinv : only_logged (fresh_engine (V:=text) 0 2000)) by (repeat split).
  split; [exact Hinv|].
  exact (proj2 (stored_document_survives_reopen "users" "u9" bob None []
                  (mkStore (fresh_engine 0 2000) Open [("users", Some user_schema)])
                  "u9" _ Hinv eq_refl)).
Defined.

(** * Every engine a run can hold *)

Lemma dict_keys_set_present {A : Type} (k : string) (v v0 : A) (d : dict A) :
  dict_get k d = Some v0 -> dict_keys (dict_set k v d) = dict_keys d.
Proof.
  induction d as [|[k' v'] rest IH]; simpl; [discriminate|].
  destruct (String.eqb_spec k' k) as [->|Hne]; [reflexivity|].
  intros H. simpl. now rewrite IH.
Qed.

(** Assigning to a key keeps the keys of a dictionary distinct. *)
Lemma dict_set_keys_NoDup {A : Type} (k : string) (v : A) (d : dict A) :
  NoDup (dict_keys d) -> NoDup (dict_keys (dict_set k v d)).
Proof.
  intros Hnd. destruct (dict_get k d) as [v0|] eqn:Hget.
  - now rewrite (dict_keys_set_present k v v0 d Hget).
  - rewrite (dict_keys_set_absent k v d Hget).
    apply NoDup_snoc; [exact Hnd | now apply dict_get_None_not_key].
Qed.


Section ReachableFacts.

Context {V : Type}.

Implicit Types (e : LSMEngine V) (key : string).

Lemma replay_lines_NoDup (lines : list (wal_line V)) mem mem' :
  NoDup (dict_keys mem) ->
  replay_lines lines mem = Returned mem' ->
  NoDup (dict_keys mem').
Proof.
  revert mem. induction lines as [|l rest IH]; intros mem Hnd; simpl.
  - now intros [= <-].
  - destruct l as [| |op k value]; [eauto | discriminate |].
    destruct (String.eqb op "put"); [apply IH; now apply dict_set_keys_NoDup|].
    destruct (String.eqb op "del"); [apply IH; now apply dict_set_keys_NoDup|].
    now apply IH.
Qed.

(** What [LSMEngine.__init__] builds when it returns: the memtable is the
    replayed log and the table list is empty, for the loop over the table
    files raises at its first file; the files are as they were. *)
Lemma init_returned limit dir e :
  LSMEngine_init limit dir = (Returned tt, e) ->
  WAL_replay dir = Returned (memtable e) /\ sstables e = []
  /\ wal_log e = wal_log dir /\ wal_end e = wal_end dir.
Proof.
  unfold LSMEngine_init, reads, modify, get_state. simpl.
  destruct (WAL_replay dir) as [mem|ex]; simpl; [|discriminate].
  destruct (sorted_tables _) as [|fp rest]; simpl; [|discriminate].
  intros [= <-]. auto.
Qed.

(** No flush changes the engine: on an empty memtable it returns, on any
    other it raises before it touches a file. *)
Lemma flush_changes_nothing e : snd (LSMEngine_flush e) = e.
Proof.
  unfold LSMEngine_flush. simpl. now destruct (memtable e).
Qed.

(** The engines of a run hold no table, and their memtable holds each key
    once. *)
Lemma reachable_without_tables e :
  reachable e -> sstables e = [] /\ NoDup (dict_keys (memtable e)).
Proof.
  induction 1 as [limit dir e Hinit|key value e _ [Hst Hnd]|key e _ IH|e _ IH
                  |e _ [Hst Hnd]|now e _ IH].
  - destruct (init_returned _ _ _ Hinit) as (Hlog & Hst & _). split; [exact Hst|].
    unfold WAL_replay in Hlog. eapply replay_lines_NoDup; [|exact Hlog]. constructor.
  - rewrite put_state. simpl. split; [exact Hst | now apply dict_set_keys_NoDup].
  - now rewrite delete_stops_at_append_del.
  - now rewrite flush_changes_nothing.
  - now rewrite (compact_empty_is_noop e Hst).
  - exact IH.
Qed.


(** X13.  No engine a run of the code can hold has a table, so on every
    one of them [compact] returns at once, at lsm.py 69-70, and changes
    nothing. *)
Theorem compact_is_a_noop_on_every_engine e :
  reachable e ->
  sstables e = [] /\ LSMEngine_compact e = (Returned tt, e).
Proof.
  intros Hrun. destruct (reachable_without_tables e Hrun) as [Hst _].
  split; [exact Hst | now apply compact_empty_is_noop].
Qed.

(** X30.  Durability on any directory: when [LSMEngine.__init__] returns
    on a directory whose log ends with a newline, then after any sequence
    of [put] and [delete] calls, returned or raised, replaying the log
    rebuilds the memtable exactly. *)
Theorem replay_rebuilds_memtable_of_any_log limit dir e (rs : list (request V)) :
  LSMEngine_init limit dir = (Returned tt, e) ->
  wal_end dir = Newline ->
  WAL_replay (serve_all e rs) = Returned (memtable (serve_all e rs)).
Proof.
  intros Hinit Hend.
  destruct (init_returned _ _ _ Hinit) as (Hlog & _ & Hlines & Hend').
  assert (Hstart : wal_end e = Newline /\ WAL_replay e = Returned (memtable e)).
  { split; [congruence|]. unfold WAL_replay in *. now rewrite Hlines. }
  clear -Hstart. unfold serve_all. revert e Hstart.
  induction rs as [|r rest IH]; intros e Hinv; simpl; [exact (proj2 Hinv)|].
  apply IH. now apply serve_keeps_log_and_memtable_in_step.
Qed.

(** A log that ends in an unparseable line does not replay, whatever
    comes before. *)
Lemma replay_lines_corrupt_end (lines : list (wal_line V)) mem :
  replay_lines (lines ++ [WCorrupt])%list mem = Raised JSONDecodeError.
Proof.
  revert mem. induction lines as [|l rest IH]; intros mem; simpl; [reflexivity|].
  destruct l as [| |op k value]; auto.
  destruct (String.eqb op "put"); auto.
  destruct (String.eqb op "del"); auto.
Qed.

(** X29.  A [put] on a log whose last line lacks its newline and is not
    blank writes its record onto that line: the running engine answers
    [get] with the value, but the log no longer replays, and opening an
    engine on the directory again raises [JSONDecodeError]. *)
Theorem put_after_unterminated_line_breaks_log key (value : V) e limit :
  wal_log e <> [] ->
  wal_end e = Text ->
  LSMEngine_get key (snd (LSMEngine_put key value e)) = Returned (Some value)
  /\ WAL_replay (snd (LSMEngine_put key value e)) = Raised JSONDecodeError
  /\ fst (LSMEngine_init limit (snd (LSMEngine_put key value e)))
     = Raised JSONDecodeError.
Proof.
  intros Hlines Hend.
  assert (Hlog : WAL_replay (snd (LSMEngine_put key value e)) = Raised JSONDecodeError).
  { rewrite put_state. unfold WAL_replay. simpl. rewrite Hend.
    destruct (wal_log e) as [|l rest]; [congruence|].
    apply replay_lines_corrupt_end. }
  split; [|split; [exact Hlog|]].
  - rewrite put_state. apply get_memtable_hit. simpl. apply dict_get_set_same.
  - unfold LSMEngine_init, reads. simpl. now rewrite Hlog.
Qed.

End ReachableFacts.




Lemma compact_is_a_noop_on_every_engine_witness :
  reachable (snd (LSMEngine_put "d" "4" reopened_engine))
  /\ LSMEngine_compact (snd (LSMEngine_put "d" "4" reopened_engine))
     = (Returned tt, snd (LSMEngine_put "d" "4" reopened_engine)).
Proof.
  assert (Hrun : reachable (snd (LSMEngine_put "d" "4" reopened_engine))).
  { apply reach_put. apply (reach_init 2000 logged_engine). reflexivity. }
  split; [exact Hrun|].
  exact (proj2 (compact_is_a_noop_on_every_engine _ Hrun)).
Defined.


Lemma put_after_unterminated_line_breaks_log_witness :
  fst (LSMEngine_init 2000 unterminated_dir) = Returned tt
  /\ LSMEngine_get "a" unterminated_engine = Returned (Some "1")
  /\ LSMEngine_get "b" (snd (LSMEngine_put "b" "2" unterminated_engine))
     = Returned (Some "2")
  /\ WAL_replay (snd (LSMEngine_put "b" "2" unterminated_engine)) = Raised JSONDecodeError
  /\ fst (LSMEngine_init 2000 (snd (LSMEngine_put "b" "2" unterminated_engine)))
     = Raised JSONDecodeError.
Proof.
  split; [reflexivity|]. split; [reflexivity|].
  assert (Hlines : wal_log unterminated_engine <> []) by discriminate.
  exact (put_after_unterminated_line_breaks_log "b" "2" unterminated_engine 2000
           Hlines eq_refl).
Defined.

Lemma replay_rebuilds_memtable_of_any_log_witness :
  LSMEngine_init 2000 logged_engine = (Returned tt, reopened_engine)
  /\ WAL_replay (serve_all reopened_engine [Put "c" "3"; Delete "b"; Put "a" "4"])
     = Returned [("a", Some "4"); ("b", Some "2"); ("c", Some "3")].
Proof.
  assert (Hinit : LSMEngine_init 2000 logged_engine = (Returned tt, reopened_engine))
    by reflexivity.
  split; [exact Hinit|].
  exact (replay_rebuilds_memtable_of_any_log 2000 logged_engine reopened_engine
           [Put "c" "3"; Delete "b"; Put "a" "4"] Hinit eq_refl).
Defined.
